(* ===== verification/_CoqProject ===== *)
-Q . S2P
Prelude.v
JsString.v
JsNumber.v
Json.v
Todo.v
Storage.v
App.v
View.v
Liveness.v
Untyped.v
Quota.v
