(* ===== verification/Prelude.v ===== *)
(** * A verification development for zos-apps/todo

    The repository is one React component, [TodoApp] in
    [src/src/index.tsx]: a reminders list kept in React state and mirrored
    to the browser's [localStorage] under the key ["zos-todos"].  This
    development models that component as a shallow embedding in Rocq and
    proves the properties that make it correct.

    ** The program and how its parts interact

    - JavaScript strings and numbers.  The component compares ids with
      [===], tests [newTodo.trim()] for emptiness and builds ids with
      [Date.now().toString()].  Strings are lists of UTF-16 code units
      (Z); [String.prototype.trim] drops the ECMA-262 WhiteSpace and
      LineTerminator code points at both ends; [Number.prototype.toString]
      follows ECMA-262 Number::toString on exact decimals.
      Files [JsString.v] (Module [JsString]) and [JsNumber.v]
      (Module [JsNumber]).
    - JSON.  Persistence is [JSON.stringify(todos)] on save and
      [JSON.parse(saved)] on load.  [Json.v] (Module [Json]) models JSON
      values, [JSON.stringify] (QuoteJSONString with the well-formed
      escaping of lone surrogates, arrays and objects without spacing) and
      [JSON.parse] as a recursive-descent parser over the full JSON grammar
      (whitespace, literals, numbers with fraction and exponent, strings
      with every escape).  The parser runs on fuel; the fuel the model
      gives it ([length text + 1]) is proved to be always enough.
    - Todo list operations.  [Todo.v] (Module [Todo]) has the [Todo]
      record and the filter type of the source, the state updaters passed
      to [setTodos] by [addTodo], [toggleTodo], [deleteTodo] and
      [clearCompleted], the derived view ([filteredTodos], [activeCount],
      [completedCount]) and the JSON encoding and decoding of a todo list.
    - Storage.  [Storage.v] states what the component needs of
      [localStorage] as a typeclass ([getItem]/[setItem] and their laws)
      and instantiates it with a stdpp [gmap] from keys to strings.
    - The component.  [App.v] (Module [App]) models the React runtime of
      [TodoApp]: the state ([todos], [newTodo], [filter]) and the store,
      the event handlers as lists of queued state updates, the commit that
      applies them and runs the [useEffect] that saves [todos] when its
      identity changed, the mount sequence (load effect, then save effect
      with the initial empty list, then the re-render), the rendered view
      (which buttons exist and whether [Add] is disabled) and a step
      relation of user events with its reachable states.
    - The page.  [View.v] (Module [View]) renders a state to the page of
      lines 69-163 (filter buttons and their highlight, input, Add button,
      empty-state text or rows, footer) and reads off which events the
      page offers.
    - What a user can do.  [Liveness.v] (Module [Liveness]) closes the
      step relation under [star] (defined here) and shows what a user can
      always reach.
    - The unchecked values.  [JSON.parse(saved)] is handed to [setTodos]
      without a check.  [Untyped.v] (Module [Untyped]) follows the
      component on the JavaScript values themselves.  Reading [todo.id],
      [todo.text] and [todo.completed], ToBoolean, [===], object spread,
      the key order of objects, React's keys and React's rendering of
      children all follow JavaScript's rules.  Ids that are objects or
      arrays are compared by identity.  An exception thrown while React
      renders or applies an updater unmounts the component before the
      commit.
      The typed model of [App.v] is proved to be this model on lists of
      records.
    - The storage quota.  [Quota.v] (Module [Quota]) gives [setItem]
      the Web Storage quota: the write throws a QuotaExceededError and
      leaves the area as it was when the area's code units would exceed
      the quota.  The save effect of lines 28-30 does not catch it, so
      React unmounts the component.  [q_commit], [q_step_fn], [q_run] and
      [q_mount] are [App]'s runtime with that [setItem].

    Files in dependency order: [Prelude.v] (this file: the [let?] parser
    notation in [parse_scope], the tactics [invc], [case_ifs], [zcases],
    the hint databases [todo] and [todo_rw], list lemmas, [filter_opt],
    [map_opt], [ifilter_opt] and [imap_opt] for callbacks that may throw,
    [star]), [JsString.v], [JsNumber.v], [Json.v], [Todo.v], [Storage.v]
    (with the store equivalence [store_equiv] and its [Proper]
    instances), [App.v], [View.v], [Liveness.v], [Untyped.v], [Quota.v].

    ** What the theorems show

    - Persistence: in every reachable state the store holds
      [JSON.stringify(todos)] ([App.reachable_mirrors]).  Decoding the
      saved text gives the list back ([Todo.parse_serialize],
      [Json.JSON_parse_stringify]), so a reload restores it
      ([App.reload_keeps_todos]).  The saved text always parses to values
      of the TypeScript type [Todo] ([App.stored_has_type]).
    - Error paths: damaged text makes the mount throw, and a saved [null]
      makes the render throw.  A saved array holding an element whose
      [todo.id] cannot be read or turned into a React key ([null], or an
      id object with its own [toString]) crashes the component after
      [[]] was written, so the saved list is lost
      ([Untyped.lmount_row_throws]).  StrictMode's second run of the
      mount effects erases the saved list ([mount_malformed],
      [mount_non_array], [mount_strict_erases]).  When two instances share
      the store, the last write wins.
    - The storage quota: a run under a quota is the run of [App.v] until
      the first list change that does not fit.  There the component is
      unmounted, and the store keeps the last list that fitted
      ([Quota.q_run_run]).  A step unmounts exactly when its new list
      does not fit ([Quota.q_step_quota]).  While mounted, the store
      mirrors the list ([Quota.q_run_mirrors]).  With a small quota, an
      added reminder is lost on reload, although spec section 7 asks that
      a failed write not stop the component: from any state whose list
      fits, adding a reminder that does not fit unmounts the component,
      and the next mount shows the list without it
      ([Quota.quota_loses_reminder]).
    - Operations: [addTodo] on a blank draft does nothing, and otherwise
      prepends one trimmed record and clears the draft.  Toggling flips
      [completed] on exactly the records with the id.  Delete and clear
      completed remove exactly what they should.  Each filter shows the
      records spec P4 names, and the footer's counts are the sizes of the
      views ([Todo.filter_partition]).  Two reminders added in the same
      millisecond share an id, and one click toggles both
      ([App.same_millisecond_ids]).
    - Liveness: from every state a user can empty the list, add any
      reminder that is not blank, and toggle any record
      ([Liveness.can_empty], [Liveness.can_add], [Liveness.can_toggle]).
    - Rendering: the footer is shown exactly when the list is not empty
      and prints the active count in plain digits ([View.render_footer]).
    - Refinement: from a list of records, every run of events gives the
      same states and stores in [App.v] and in [Untyped.v]
      ([Untyped.lrun_lift]), and so does a reload
      ([Untyped.lmount_reload]).  On other saved data, [Untyped.v] shows
      four behaviours.  A record with [completed: 0] shows "0" in its
      toggle button.  A record whose [completed] is a non-empty string,
      even "false", counts as completed.  One click toggles every record that has no [id].
      Two records with equal object ids share a React key but toggle
      apart.
    - Library semantics used by the component: [trim] meets its
      specification ([JsString.trim_iff_spec]).  [Date.now().toString()]
      is the plain decimal digits of the timestamp.  [JSON_parse] accepts
      a text exactly when the fuelled parser does with some fuel
      ([Json.JSON_parse_adequate]), so a [None] of the model is a
      SyntaxError of JSON.parse.

    ** Bounds and fuel

    - [JSON_parse text] runs the parser with fuel [length text + 1].
      Every call consumes at least one code unit.  So a parse that
      succeeds with some fuel succeeds with fuel equal to the code units
      it consumes ([Json.parse_fuel_enough]).  That fuel is never more
      than [length text].
    - [digits_N n] uses fuel [log2 n + 1], which is at least the number
      of decimal digits of [n].
    - Numbers are exact.  Integers below 10^21 print as plain digits.
      Timestamps are taken between 0 and [MAX_SAFE_INTEGER] = 2^53 - 1,
      where binary64 is exact, and [Date.now()] is far below that bound.

    ** Not modelled

    - The clock: the two [Date.now()] readings are parameters of the
      events.
    - The [onClose] prop: it is never called.
    - Class names, icons and layout.
    - Binary64 rounding of non-integer or huge numbers in JSON.  Numbers
      are exact decimals, so [===] and ToBoolean on such numbers are
      taken on their exact values.
    - The browser's quota itself: it is a parameter of [Quota.v], and
      the area is measured in code units of keys and values.  Other
      failures of [setItem] and [getItem] (storage disabled) are not
      modelled.  Nor is a second instance filling the area between two
      writes of this one.
    - StrictMode's double mount under a quota: [Quota.q_mount] follows
      the single mount.
    - React's reconciliation: two rows with the same key (two object
      ids) make React warn; the page model shows both rows.

    Each file's header lists the theorems of that file. *)

From stdpp Require Import base list.
From Stdlib Require Import ZArith Lia.

(** ** Notation: the option-returning parser bind of the JSON model *)

Declare Scope parse_scope.
Delimit Scope parse_scope with parse.

(** [let? (x, r) := m in k] runs the parser step [m]; on failure the whole
    parse fails (JSON.parse throws a SyntaxError). *)
Notation "'let?' ( x , r ) ':=' m 'in' k" :=
  (match m with Some (x, r) => k | None => None end)
  (at level 10, x pattern, r pattern, m at level 100, k at level 200)
  : parse_scope.

(** ** Hint database of the development *)

Create HintDb todo discriminated.
Create Rewrite HintDb todo_rw.

(** ** Tactics *)

(** Invert a hypothesis and clean up. *)
Ltac invc H := inversion H; subst; clear H.

(** Case on every boolean test in the goal that stands as the scrutinee of
    an [if], remembering the equation. *)
Ltac case_ifs :=
  repeat match goal with
         | |- context [if ?b then _ else _] =>
             let E := fresh "E" in destruct b eqn:E
         end.

(** Case on every comparison of integers in the goal, then discharge the
    arithmetic that is left contradictory. *)
Ltac zcases :=
  repeat match goal with
         | |- context [Z.leb ?a ?b] => destruct (Z.leb_spec a b)
         | |- context [Z.ltb ?a ?b] => destruct (Z.ltb_spec a b)
         | |- context [Z.eqb ?a ?b] => destruct (Z.eqb_spec a b)
         end; simpl in *; try lia.

(** ** Generic lemmas on lists shared by the components *)

Section ListFacts.
Context {A : Type}.

Lemma filter_id_all (f : A -> bool) (l : list A) :
  (forall x, In x l -> f x = true) -> List.filter f l = l.
Proof.
  induction l as [|x l IH]; intros H; simpl; [done|].
  rewrite H by (left; done). f_equal. apply IH. intros y Hy. apply H. by right.
Qed.

Lemma filter_none (f : A -> bool) (l : list A) :
  (forall x, In x l -> f x = false) -> List.filter f l = [].
Proof.
  induction l as [|x l IH]; intros H; simpl; [done|].
  rewrite H by (left; done). apply IH. intros y Hy. apply H. by right.
Qed.

Lemma filter_idem (f : A -> bool) (l : list A) :
  List.filter f (List.filter f l) = List.filter f l.
Proof.
  apply filter_id_all. intros x Hx. by apply filter_In in Hx as [_ ->].
Qed.

Lemma filter_filter_comm (f g : A -> bool) (l : list A) :
  List.filter f (List.filter g l) = List.filter g (List.filter f l).
Proof.
  induction l as [|x l IH]; simpl; [done|].
  destruct (f x) eqn:Ef, (g x) eqn:Eg; simpl; rewrite ?Ef, ?Eg; congruence.
Qed.

(** Splitting a list by a predicate and by its negation counts every
    element exactly once. *)
Lemma filter_negb_length (f : A -> bool) (l : list A) :
  length (List.filter f l) + length (List.filter (fun x => negb (f x)) l)
  = length l.
Proof.
  induction l as [|x l IH]; simpl; [done|]. destruct (f x); simpl; lia.
Qed.

Lemma filter_length_le (f : A -> bool) (l : list A) :
  length (List.filter f l) <= length l.
Proof. pose proof (filter_negb_length f l). lia. Qed.

Lemma length_filter_map_id (f : A -> A) (p : A -> bool) (l : list A) :
  (forall x, p (f x) = p x) ->
  length (List.filter p (map f l)) = length (List.filter p l).
Proof.
  intros H. induction l as [|x l IH]; simpl; [done|].
  rewrite H. destruct (p x); simpl; lia.
Qed.

Lemma map_id_in (f : A -> A) (l : list A) :
  (forall x, In x l -> f x = x) -> map f l = l.
Proof.
  induction l as [|x l IH]; intros H; simpl; [done|].
  rewrite H by (left; done). f_equal. apply IH. intros y Hy. apply H. by right.
Qed.

Lemma list_sum_map_le (f g : A -> nat) (l : list A) :
  Forall (fun x => f x <= g x) l ->
  list_sum (map f l) <= list_sum (map g l).
Proof. induction 1; simpl; lia. Qed.

Lemma existsb_map {B} (f : B -> bool) (g : A -> B) (l : list A) :
  existsb f (map g l) = existsb (fun x => f (g x)) l.
Proof. induction l as [|x l IH]; simpl; congruence. Qed.
End ListFacts.

(** ** Lists processed by a callback that may throw

    [l.filter(p)] and [l.map(f)] whose callback can throw a JavaScript
    exception, [None]: the whole call throws. *)

Section OptionLists.
Context {A B : Type}.

Fixpoint filter_opt (p : A -> option bool) (l : list A) : option (list A) :=
  match l with
  | [] => Some []
  | x :: l' =>
      match p x, filter_opt p l' with
      | Some b, Some r => Some (if b then x :: r else r)
      | _, _ => None
      end
  end.

Fixpoint map_opt (f : A -> option B) (l : list A) : option (list B) :=
  match l with
  | [] => Some []
  | x :: l' =>
      match f x, map_opt f l' with
      | Some y, Some r => Some (y :: r)
      | _, _ => None
      end
  end.

(** The same with a callback that also sees the position of the element. *)
Fixpoint imap_opt (f : nat -> A -> option B) (l : list A) : option (list B) :=
  match l with
  | [] => Some []
  | x :: l' =>
      match f 0 x, imap_opt (fun k => f (S k)) l' with
      | Some y, Some r => Some (y :: r)
      | _, _ => None
      end
  end.

Fixpoint ifilter_opt (p : nat -> A -> option bool) (l : list A) : option (list A) :=
  match l with
  | [] => Some []
  | x :: l' =>
      match p 0 x, ifilter_opt (fun k => p (S k)) l' with
      | Some b, Some r => Some (if b then x :: r else r)
      | _, _ => None
      end
  end.

(** A callback that does not look at the position. *)
Lemma imap_opt_const (f : nat -> A -> option B) (g : A -> option B) l :
  (forall k x, f k x = g x) -> imap_opt f l = map_opt g l.
Proof.
  revert f. induction l as [|x l IH]; intros f Hf; simpl; [done|].
  rewrite Hf, (IH (fun k => f (S k))) by done. done.
Qed.

Lemma ifilter_opt_const (p : nat -> A -> option bool) (q : A -> option bool) l :
  (forall k x, p k x = q x) -> ifilter_opt p l = filter_opt q l.
Proof.
  revert p. induction l as [|x l IH]; intros p Hp; simpl; [done|].
  rewrite Hp, (IH (fun k => p (S k))) by done. done.
Qed.

Lemma filter_opt_Some (p : A -> bool) (q : A -> option bool) (l : list A) :
  (forall x, In x l -> q x = Some (p x)) -> filter_opt q l = Some (List.filter p l).
Proof.
  induction l as [|x l IH]; intros H; simpl; [done|].
  rewrite H by (left; done). rewrite IH by (intros y Hy; apply H; by right).
  by destruct (p x).
Qed.

Lemma map_opt_Some (f : A -> B) (g : A -> option B) (l : list A) :
  (forall x, In x l -> g x = Some (f x)) -> map_opt g l = Some (map f l).
Proof.
  induction l as [|x l IH]; intros H; simpl; [done|].
  rewrite H by (left; done). by rewrite IH by (intros y Hy; apply H; by right).
Qed.
End OptionLists.

(** ** Sequences of transitions *)

Section Star.
Context {A : Type} (R : A -> A -> Prop).

(** Zero, one or several transitions. *)
Inductive star : A -> A -> Prop :=
  | star_refl a : star a a
  | star_step a b c : R a b -> star b c -> star a c.

Lemma star_one a b : R a b -> star a b.
Proof. eauto using star. Qed.

Lemma star_trans a b c : star a b -> star b c -> star a c.
Proof. induction 1; eauto using star. Qed.
End Star.

#[export] Hint Constructors star : todo.
#[export] Hint Resolve star_one star_trans : todo.

#[export] Hint Rewrite @filter_idem : todo_rw.
#[export] Hint Resolve filter_length_le : todo.
