(* ===== verification/JsString.v ===== *)
(** * JavaScript strings as the component uses them

    A JavaScript string is a sequence of UTF-16 code units; it is modelled
    as [list Z], each code unit in [0, 65536).  The component uses three
    string operations: [s.trim()] (src/src/index.tsx lines 33, 37 and 100),
    the truthiness test of a string ([!newTodo.trim()], [if (saved)]) and
    strict equality [===] on ids (line 48, 53).

    Theorems: [trim] meets its abstract specification (drop the longest
    whitespace prefix and suffix) and is the only function that does
    ([trim_iff_spec]), and it gives the empty string exactly on
    all-whitespace input. *)

From stdpp Require Import base list.
From Stdlib Require Import ZArith Lia Ascii String.
From S2P Require Import Prelude.

Module JsString.
Open Scope Z_scope.

(** ** Code units and strings *)

Definition jsstr := list Z.

Definition cu_wf (c : Z) : bool := (0 <=? c) && (c <? 65536).

Definition jsstr_wf (s : jsstr) : bool := forallb cu_wf s.

(** String literals of the source, written with Rocq's ASCII strings. *)
Fixpoint js (s : string) : jsstr :=
  match s with
  | EmptyString => []
  | String a s' => Z.of_N (N_of_ascii a) :: js s'
  end.

(** [s1 === s2] on strings: same length and same code units. *)
Definition str_eqb (s1 s2 : jsstr) : bool := bool_decide (s1 = s2).

Lemma str_eqb_spec s1 s2 : reflect (s1 = s2) (str_eqb s1 s2).
Proof. unfold str_eqb. apply bool_decide_reflect. Qed.

Lemma str_eqb_refl s : str_eqb s s = true.
Proof. by destruct (str_eqb_spec s s). Qed.

(** ToBoolean on a string: only the empty string is falsy. *)
Definition truthy (s : jsstr) : bool :=
  match s with [] => false | _ => true end.

(** ** White space, as String.prototype.trim sees it

    ECMA-262 TrimString removes the code points of WhiteSpace (TAB, VT, FF,
    ZWNBSP, the Unicode category Zs) and LineTerminator (LF, CR, LS, PS).
    All of them are in the Basic Multilingual Plane and none is a surrogate,
    so testing code units one by one is the same as testing code points. *)
Definition ws_units : list Z :=
  [9; 10; 11; 12; 13; 32; 160; 5760; 8232; 8233; 8239; 8287; 12288; 65279].

Definition is_ws (c : Z) : bool :=
  existsb (Z.eqb c) ws_units || ((8192 <=? c) && (c <=? 8202)).

Definition is_high_surrogate (c : Z) : bool := (55296 <=? c) && (c <=? 56319).
Definition is_low_surrogate (c : Z) : bool := (56320 <=? c) && (c <=? 57343).

(** ** String.prototype.trim *)

Fixpoint trim_start (s : jsstr) : jsstr :=
  match s with
  | [] => []
  | c :: s' => if is_ws c then trim_start s' else s
  end.

Definition trim_end (s : jsstr) : jsstr := rev (trim_start (rev s)).

Definition trim (s : jsstr) : jsstr := trim_end (trim_start s).

(** ** Abstract specification of trim *)

Definition all_ws (p : jsstr) : Prop := Forall (fun c => is_ws c = true) p.

(** [t] is [s] with its leading and trailing white space removed: [s] is
    [p ++ t ++ q] with [p] and [q] all white space, and [t] neither starts
    nor ends with white space. *)
Definition trim_spec (s t : jsstr) : Prop :=
  exists p q, s = p ++ t ++ q /\ all_ws p /\ all_ws q /\
    (forall c, head t = Some c -> is_ws c = false) /\
    (forall c, last t = Some c -> is_ws c = false).

(** ** Lemmas on trim_start and trim_end *)

Lemma trim_start_split s :
  exists p, s = p ++ trim_start s /\ all_ws p /\
    (forall c, head (trim_start s) = Some c -> is_ws c = false).
Proof.
  induction s as [|c s IH]; simpl.
  - exists []. split_and!; [done|constructor|done].
  - destruct (is_ws c) eqn:E.
    + destruct IH as (p & Hs & Hp & Hh). exists (c :: p).
      split_and!; [simpl; congruence|by constructor|done].
    + exists []. split_and!; [done|constructor|]. simpl. congruence.
Qed.

Lemma trim_start_app_ws p s : all_ws p -> trim_start (p ++ s) = trim_start s.
Proof. induction 1 as [|c p Hc _ IH]; simpl; [done|]. by rewrite Hc. Qed.

Lemma trim_start_no_ws s :
  (forall c, head s = Some c -> is_ws c = false) -> trim_start s = s.
Proof. destruct s as [|c s]; simpl; [done|]. intros H. by rewrite H. Qed.

Lemma all_ws_rev p : all_ws p -> all_ws (rev p).
Proof. unfold all_ws. intros H. apply Forall_rev. done. Qed.

Lemma head_rev_last (s : jsstr) : head (rev s) = last s.
Proof.
  induction s as [|c s IH] using rev_ind; [done|].
  rewrite rev_app_distr, last_snoc. done.
Qed.

Lemma trim_end_split s :
  exists q, s = trim_end s ++ q /\ all_ws q /\
    (forall c, last (trim_end s) = Some c -> is_ws c = false).
Proof.
  destruct (trim_start_split (rev s)) as (p & Hs & Hp & Hh).
  exists (rev p). unfold trim_end. split_and!.
  - rewrite <- rev_app_distr, <- Hs, rev_involutive. done.
  - by apply all_ws_rev.
  - intros c Hc. apply Hh. by rewrite <- head_rev_last, rev_involutive in Hc.
Qed.

Lemma trim_end_app_ws s q : all_ws q -> trim_end (s ++ q) = trim_end s.
Proof.
  intros Hq. unfold trim_end. rewrite rev_app_distr, trim_start_app_ws; [done|].
  by apply all_ws_rev.
Qed.

Lemma trim_end_no_ws s :
  (forall c, last s = Some c -> is_ws c = false) -> trim_end s = s.
Proof.
  intros H. unfold trim_end. rewrite trim_start_no_ws; [apply rev_involutive|].
  intros c Hc. apply H. by rewrite <- head_rev_last.
Qed.

Lemma head_app_ne (t q : jsstr) c : head t = Some c -> head (t ++ q) = Some c.
Proof. by destruct t. Qed.

Lemma trim_end_head s c :
  head (trim_end s) = Some c -> head s = Some c.
Proof.
  intros H. destruct (trim_end_split s) as (q & Hs & _ & _). rewrite Hs.
  by apply head_app_ne.
Qed.

(** ** trim meets its specification, and only trim does *)

Lemma trim_meets_spec s : trim_spec s (trim s).
Proof.
  destruct (trim_start_split s) as (p & Hs & Hp & Hh).
  destruct (trim_end_split (trim_start s)) as (q & Hs' & Hq & Hl).
  exists p, q. unfold trim. split_and!; [|done|done| |done].
  - by rewrite <- Hs'.
  - intros c Hc. apply Hh. by apply trim_end_head.
Qed.

Lemma trim_spec_unique s t : trim_spec s t -> trim s = t.
Proof.
  intros (p & q & -> & Hp & Hq & Hh & Hl). unfold trim.
  rewrite trim_start_app_ws by done.
  destruct t as [|d t].
  - simpl. rewrite <- (app_nil_r q), trim_start_app_ws by done. done.
  - rewrite trim_start_no_ws by (intros c Hc; apply Hh; done).
    rewrite trim_end_app_ws by done. by apply trim_end_no_ws.
Qed.

(** ** Properties of trim *)

(** C31: [trim] is the function that the abstract specification describes. *)
Theorem trim_iff_spec s t : trim s = t <-> trim_spec s t.
Proof.
  split; [intros <-; apply trim_meets_spec | apply trim_spec_unique].
Qed.

Lemma all_ws_forallb s : all_ws s <-> forallb is_ws s = true.
Proof. unfold all_ws. rewrite forallb_forall, List.Forall_forall. reflexivity. Qed.

(** The trimmed string is empty exactly when every code unit is white
    space: the gate [if (!newTodo.trim()) return] of [addTodo]. *)
Lemma trim_nil_iff s : trim s = [] <-> forallb is_ws s = true.
Proof.
  rewrite <- all_ws_forallb. split.
  - intros E. destruct (trim_meets_spec s) as (p & q & Hs & Hp & Hq & _).
    rewrite E in Hs. subst s. unfold all_ws. simpl. apply Forall_app. by split.
  - intros H. apply trim_spec_unique. exists s, []. rewrite app_nil_r.
    split_and!; [done|done|constructor|done|done].
Qed.

Lemma truthy_nil_iff s : truthy s = false <-> s = [].
Proof. destruct s; simpl; split; congruence. Qed.

(** The trimmed string is a contiguous part of the input, so it keeps the
    input's code units in range. *)
Lemma js_wf s : jsstr_wf (js s) = true.
Proof.
  induction s as [|a s IH]; [done|]. simpl. rewrite IH, andb_true_r.
  pose proof (N_ascii_bounded a). unfold cu_wf. apply andb_true_intro. lia.
Qed.

End JsString.
