(* ===== verification/JsNumber.v ===== *)
(** * JavaScript numbers as decimal strings

    The component turns numbers into strings twice: [Date.now().toString()]
    builds a todo's id (src/src/index.tsx line 36), and [JSON.stringify]
    writes [createdAt] (line 29).  Both are ECMA-262 Number::toString with
    radix 10.  A number is modelled as an exact decimal
    [(-1)^dneg * dmant * 10^dexp]; binary64 rounding is not modelled, which
    is exact for every timestamp (an integer below 2^53).

    Theorems: the decimal digits of [n] read back as [n] ([digits_value_N]);
    they start with a nonzero digit unless [n = 0]; Number::toString of an
    integer below 10^21 is its plain digit string ([number_toString_int]). *)

From Stdlib Require Import String.
From stdpp Require Import base list.
From Stdlib Require Import ZArith Lia.
From S2P Require Import Prelude JsString.
Import JsString.

Module JsNumber.
Open Scope Z_scope.

(** ** Decimal digits *)

Definition is_digit (c : Z) : bool := (48 <=? c) && (c <=? 57).

Definition digit_of (n : N) : Z := 48 + Z.of_N (n mod 10).

Definition digit_value (c : Z) : N := Z.to_N (c - 48).

(** The digits of [n], most significant first; [fuel] bounds the number of
    digits. *)
Fixpoint digits_fuel (fuel : nat) (n : N) : jsstr :=
  match fuel with
  | O => []
  | S f => (if (n <? 10)%N then [] else digits_fuel f (n / 10)%N) ++ [digit_of n]
  end.

(** [n < 2 ^ (log2 n + 1) <= 10 ^ (log2 n + 1)], so [log2 n + 1] digits
    always suffice (see [digits_fuel_enough]). *)
Definition digits_N (n : N) : jsstr := digits_fuel (S (N.to_nat (N.log2 n))) n.

Definition digits_value (s : jsstr) : N :=
  fold_left (fun a c => a * 10 + digit_value c)%N s 0%N.

(** ** Exact decimals and ECMA-262 Number::toString *)

Record decimal := mkDecimal { dneg : bool; dmant : N; dexp : Z }.

Definition decimal_of_Z (z : Z) : decimal :=
  {| dneg := z <? 0; dmant := Z.to_N (Z.abs z); dexp := 0 |}.

(** Digits without their trailing zeros. *)
Fixpoint drop_zeros (s : jsstr) : jsstr :=
  match s with
  | c :: s' => if c =? 48 then drop_zeros s' else s
  | [] => []
  end.

Definition strip_trailing_zeros (s : jsstr) : jsstr := rev (drop_zeros (rev s)).

(** Number::toString(x, 10), steps 2 to 10, for x = the decimal [d]: [s]
    is the shortest digit string with [x = s * 10^(n-k)], [k = |s|]. *)
Definition number_toString (d : decimal) : jsstr :=
  if (dmant d =? 0)%N then [48] else
  let sign := if dneg d then [45] else [] in
  let D := digits_N (dmant d) in
  let s := strip_trailing_zeros D in
  let k := Z.of_nat (length s) in
  let n := Z.of_nat (length D) + dexp d in
  sign ++
  (if (k <=? n) && (n <=? 21) then s ++ repeat 48 (Z.to_nat (n - k))
   else if (0 <? n) && (n <=? 21) then
     take (Z.to_nat n) s ++ [46] ++ drop (Z.to_nat n) s
   else if (-6 <? n) && (n <=? 0) then [48; 46] ++ repeat 48 (Z.to_nat (- n)) ++ s
   else
     let e := n - 1 in
     let esign := if e <? 0 then 45 else 43 in
     let ed := digits_N (Z.to_N (Z.abs e)) in
     if k =? 1 then s ++ [101; esign] ++ ed
     else take 1 s ++ [46] ++ drop 1 s ++ [101; esign] ++ ed).

(** [Date.now().toString()] on a timestamp. *)
Definition Number_toString (z : Z) : jsstr := number_toString (decimal_of_Z z).

(** ** Lemmas on digits *)

Lemma digit_of_range n : 48 <= digit_of n <= 57.
Proof.
  unfold digit_of. pose proof (N.mod_lt n 10 ltac:(lia)) as H.
  apply N2Z.inj_lt in H. pose proof (N2Z.is_nonneg (n mod 10)).
  remember (Z.of_N (n mod 10)) as d eqn:Hd. clear Hd. simpl in H. lia.
Qed.

Lemma digits_value_snoc s c :
  digits_value (s ++ [c]) = (digits_value s * 10 + digit_value c)%N.
Proof. unfold digits_value. rewrite fold_left_app. done. Qed.

Lemma digit_value_of n : digit_value (digit_of n) = (n mod 10)%N.
Proof. unfold digit_value, digit_of. rewrite Z.add_simpl_l. apply N2Z.id. Qed.

Lemma digits_fuel_value f n :
  (n < 10 ^ N.of_nat f)%N -> digits_value (digits_fuel f n) = n.
Proof.
  revert n. induction f as [|f IH]; intros n Hn; simpl.
  - unfold digits_value. simpl in *. lia.
  - rewrite digits_value_snoc, digit_value_of.
    destruct (N.ltb_spec n 10).
    + change (digits_value []) with 0%N. rewrite N.mod_small by lia. lia.
    + rewrite IH.
      * pose proof (N.div_mod n 10). lia.
      * rewrite Nat2N.inj_succ, N.pow_succ_r' in Hn.
        apply N.Div0.div_lt_upper_bound. lia.
Qed.

Lemma digits_fuel_enough n : (n < 10 ^ N.of_nat (S (N.to_nat (N.log2 n))))%N.
Proof.
  rewrite Nat2N.inj_succ, N2Nat.id.
  apply N.lt_le_trans with (2 ^ N.succ (N.log2 n))%N.
  - destruct (N.eq_dec n 0) as [->|Hn]; [done|].
    apply N.log2_spec. lia.
  - apply N.pow_le_mono_l. lia.
Qed.

(** The digit string of [n] reads back as [n]. *)
Lemma digits_value_N n : digits_value (digits_N n) = n.
Proof. apply digits_fuel_value, digits_fuel_enough. Qed.

Lemma digits_fuel_digits f n : Forall (fun c => is_digit c = true) (digits_fuel f n).
Proof.
  revert n. induction f as [|f IH]; intros n; simpl; [constructor|].
  apply Forall_app. split.
  - destruct (n <? 10)%N; [constructor|apply IH].
  - constructor; [|constructor]. unfold is_digit.
    pose proof (digit_of_range n). apply andb_true_intro; split; apply Z.leb_le; lia.

Qed.

Lemma digits_N_digits n : Forall (fun c => is_digit c = true) (digits_N n).
Proof. apply digits_fuel_digits. Qed.

Lemma digits_fuel_length f n j :
  (0 < j)%nat -> (n < 10 ^ N.of_nat j)%N -> (length (digits_fuel f n) <= j)%nat.
Proof.
  revert n j. induction f as [|f IH]; intros n j Hj Hn; simpl; [lia|].
  rewrite length_app. simpl. destruct (N.ltb_spec n 10); simpl; [lia|].
  destruct j as [|j]; [lia|].
  rewrite Nat2N.inj_succ, N.pow_succ_r' in Hn.
  destruct j as [|j]; [simpl in Hn; lia|].
  enough (length (digits_fuel f (n / 10)) <= S j)%nat by lia.
  apply IH; [lia|]. apply N.Div0.div_lt_upper_bound. lia.
Qed.

Lemma drop_zeros_split s :
  s = repeat 48 (length s - length (drop_zeros s))%nat ++ drop_zeros s /\
  (length (drop_zeros s) <= length s)%nat.
Proof.
  induction s as [|c s [IH1 IH2]]; simpl; [done|].
  destruct (Z.eqb_spec c 48) as [->|Hc]; simpl.
  - split; [|lia]. replace (S (length s) - length (drop_zeros s))%nat
      with (S (length s - length (drop_zeros s))) by lia.
    simpl. f_equal. done.
  - rewrite Nat.sub_diag. split; [done|lia].
Qed.

Lemma strip_trailing_zeros_split s :
  s = strip_trailing_zeros s ++ repeat 48 (length s - length (strip_trailing_zeros s))%nat.
Proof.
  unfold strip_trailing_zeros. destruct (drop_zeros_split (rev s)) as [H _].
  rewrite length_rev, <- (length_rev s).
  rewrite <- (rev_involutive s) at 1. rewrite H at 1.
  rewrite rev_app_distr, rev_repeat. done.
Qed.

Lemma strip_trailing_zeros_length s :
  (length (strip_trailing_zeros s) <= length s)%nat.
Proof.
  unfold strip_trailing_zeros. rewrite length_rev, <- (length_rev s).
  apply drop_zeros_split.
Qed.

Lemma digits_N_length n j :
  (0 < j)%nat -> (n < 10 ^ N.of_nat j)%N -> (length (digits_N n) <= j)%nat.
Proof. apply digits_fuel_length. Qed.

Lemma digits_N_0 : digits_N 0 = [48].
Proof. reflexivity. Qed.

(** ** Number::toString on integers *)

(** Below 10^21 in absolute value, Number::toString of an integer is its
    sign followed by its plain decimal digits (step 6 of Number::toString):
    this is what [Date.now().toString()] and [JSON.stringify] produce for
    timestamps. *)
Theorem number_toString_int z :
  Z.abs z < 10 ^ 21 ->
  Number_toString z = (if z <? 0 then [45] else []) ++ digits_N (Z.to_N (Z.abs z)).
Proof.
  intros Hz. unfold Number_toString, number_toString, decimal_of_Z. simpl dmant.
  destruct (N.eqb_spec (Z.to_N (Z.abs z)) 0) as [H0|H0].
  { assert (z = 0) as -> by lia. reflexivity. }
  simpl dneg. simpl dexp. f_equal.
  pose proof (strip_trailing_zeros_length (digits_N (Z.to_N (Z.abs z)))) as Hk.
  assert (length (digits_N (Z.to_N (Z.abs z))) <= 21)%nat as Hn.
  { apply digits_N_length; [lia|]. simpl. lia. }
  rewrite Z.add_0_r.
  destruct (Z.leb_spec (Z.of_nat (length (strip_trailing_zeros (digits_N (Z.to_N (Z.abs z))))))
             (Z.of_nat (length (digits_N (Z.to_N (Z.abs z)))))); [|lia].
  destruct (Z.leb_spec (Z.of_nat (length (digits_N (Z.to_N (Z.abs z))))) 21); [|lia].
  simpl. rewrite <- Nat2Z.inj_sub, Nat2Z.id by lia.
  symmetry. apply strip_trailing_zeros_split.
Qed.

Lemma digits_fuel_head f n :
  (0 < f)%nat -> (n < 10 ^ N.of_nat f)%N -> n <> 0%N ->
  exists c D, digits_fuel f n = c :: D /\ c <> 48.
Proof.
  revert n. induction f as [|f IH]; intros n Hf Hn H0; [lia|]. simpl.
  destruct (N.ltb_spec n 10).
  - exists (digit_of n), []. split; [done|]. unfold digit_of.
    rewrite N.mod_small by lia. lia.
  - rewrite Nat2N.inj_succ, N.pow_succ_r' in Hn.
    destruct f as [|f]; [simpl in Hn; lia|].
    destruct (IH (n / 10)%N) as (c & D & -> & Hc).
    + lia.
    + apply N.Div0.div_lt_upper_bound. lia.
    + intros Hd. apply N.div_small_iff in Hd; lia.
    + exists c, (D ++ [digit_of n]). done.
Qed.

Lemma digits_N_cons n : exists c D, digits_N n = c :: D.
Proof.
  unfold digits_N. simpl. destruct (_ ++ _) as [|c D] eqn:E.
  - by apply app_eq_nil in E as [_ ?].
  - by exists c, D.
Qed.

(** The digit string of a nonzero number does not start with [0]. *)
Lemma digits_N_head n :
  n <> 0%N -> exists c D, digits_N n = c :: D /\ c <> 48.
Proof. intros H. apply digits_fuel_head; [lia|apply digits_fuel_enough|done]. Qed.

(** A nonnegative integer below 10^21 prints as its plain decimal digits. *)
Lemma Number_toString_nonneg z :
  0 <= z < 10 ^ 21 -> Number_toString z = digits_N (Z.to_N z).
Proof.
  intros Hz. rewrite number_toString_int by lia.
  destruct (Z.ltb_spec z 0); [lia|]. simpl. by rewrite Z.abs_eq by lia.
Qed.

(** C32: [Date.now().toString()]: a timestamp below 10^21 prints as its plain
    decimal digits, without sign, point or exponent. *)
Theorem Number_toString_timestamp z :
  0 <= z < 10 ^ 21 -> Number_toString z = digits_N (Z.to_N z).
Proof. apply Number_toString_nonneg. Qed.

(** ** Witnesses *)

Lemma Number_toString_timestamp_witness :
  0 <= 1700000000000 < 10 ^ 21 /\
  Number_toString 1700000000000 = digits_N (Z.to_N 1700000000000).
Proof. split; [lia|]. apply Number_toString_timestamp. lia. Defined.

End JsNumber.
