(* ===== verification/Json.v ===== *)
(** * JSON.stringify and JSON.parse

    The component saves its list with [JSON.stringify(todos)] and restores
    it with [JSON.parse(saved)] (src/src/index.tsx lines 24 and 29).  This
    file models both on JSON values whose strings are UTF-16 code-unit
    lists and whose numbers are exact decimals:
    - [stringify] is ECMA-262 SerializeJSONProperty without replacer or
      indentation: QuoteJSONString (short escapes, [\u00XX] for the other
      controls, lone surrogates escaped as [\uDXXX], surrogate pairs kept),
      arrays and objects joined with commas and no spacing.
    - [JSON_parse] is a recursive-descent parser for the JSON grammar of
      ECMA-404 that JSON.parse accepts (white space, literals, numbers with
      fraction and exponent, strings with every escape), [None] meaning
      that JSON.parse throws a SyntaxError.  It runs on fuel.

    Theorems: [JSON.parse (JSON.stringify v) = v] for every value whose
    strings are well formed and whose numbers are integers below 10^21
    ([JSON_parse_stringify]); a parse that succeeds with some fuel
    succeeds with as much fuel as the code units it consumes, so the fuel
    given by [JSON_parse] never makes a parse fail ([parse_fuel_enough],
    [JSON_parse_adequate]). *)

From Stdlib Require Import String.
From stdpp Require Import base list.
From Stdlib Require Import ZArith Lia.
From S2P Require Import Prelude JsString JsNumber.
Import JsString JsNumber.

Module Json.
Open Scope Z_scope.
Open Scope parse_scope.

(** ** JSON values *)

#[local] Set Warnings "-register-all".

Inductive jval :=
  | JNull
  | JBool (b : bool)
  | JNum (d : decimal)
  | JStr (s : jsstr)
  | JArr (l : list jval)
  | JObj (kvs : list (jsstr * jval)).

(** Induction over values with a hypothesis for every element of an array
    and every member of an object. *)
Section jval_ind.
Variable P : jval -> Prop.
Hypothesis HNull : P JNull.
Hypothesis HBool : forall b, P (JBool b).
Hypothesis HNum : forall d, P (JNum d).
Hypothesis HStr : forall s, P (JStr s).
Hypothesis HArr : forall l, Forall P l -> P (JArr l).
Hypothesis HObj : forall kvs, Forall (fun kv => P (snd kv)) kvs -> P (JObj kvs).

Fixpoint jval_ind' (v : jval) : P v :=
  match v with
  | JNull => HNull
  | JBool b => HBool b
  | JNum d => HNum d
  | JStr s => HStr s
  | JArr l =>
      HArr l ((fix go (l : list jval) : Forall P l :=
                 match l with
                 | [] => List.Forall_nil _
                 | x :: l' => List.Forall_cons _ x l' (jval_ind' x) (go l')
                 end) l)
  | JObj kvs =>
      HObj kvs ((fix go (kvs : list (jsstr * jval)) : Forall (fun kv => P (snd kv)) kvs :=
                   match kvs with
                   | [] => List.Forall_nil _
                   | kv :: kvs' => List.Forall_cons _ kv kvs' (jval_ind' (snd kv)) (go kvs')
                   end) kvs)
  end.
End jval_ind.

(** ** JSON.stringify *)

(** Lowercase hexadecimal digit, as UnicodeEscape writes it. *)
Definition hex_digit (n : Z) : Z := if n <? 10 then 48 + n else 87 + n.

(** UnicodeEscape(C): [\u] and four lowercase hex digits. *)
Definition unicode_escape (c : Z) : jsstr :=
  [92; 117; hex_digit (c / 4096 mod 16); hex_digit (c / 256 mod 16);
   hex_digit (c / 16 mod 16); hex_digit (c mod 16)].

(** QuoteJSONString, one code unit that is not a surrogate. *)
Definition escape_unit (c : Z) : jsstr :=
  if c =? 8 then [92; 98]
  else if c =? 9 then [92; 116]
  else if c =? 10 then [92; 110]
  else if c =? 12 then [92; 102]
  else if c =? 13 then [92; 114]
  else if c =? 34 then [92; 34]
  else if c =? 92 then [92; 92]
  else if c <? 32 then unicode_escape c
  else [c].

(** QuoteJSONString walks the code points of the string: a surrogate pair
    is one code point and is copied; a lone surrogate is escaped. *)
Fixpoint quote_units (s : jsstr) : jsstr :=
  match s with
  | [] => []
  | c :: s' =>
      if is_high_surrogate c then
        match s' with
        | d :: s'' =>
            if is_low_surrogate d then c :: d :: quote_units s''
            else unicode_escape c ++ quote_units s'
        | [] => unicode_escape c
        end
      else if is_low_surrogate c then unicode_escape c ++ quote_units s'
      else escape_unit c ++ quote_units s'
  end.

Definition quote (s : jsstr) : jsstr := [34] ++ quote_units s ++ [34].

(** The elements separated by commas. *)
Fixpoint join_comma (l : list jsstr) : jsstr :=
  match l with
  | [] => []
  | [x] => x
  | x :: l' => x ++ [44] ++ join_comma l'
  end.

Fixpoint stringify (v : jval) : jsstr :=
  match v with
  | JNull => js "null"%string
  | JBool true => js "true"%string
  | JBool false => js "false"%string
  | JNum d => number_toString d
  | JStr s => quote s
  | JArr l => [91] ++ join_comma (map stringify l) ++ [93]
  | JObj kvs =>
      [123] ++ join_comma (map (fun kv => quote kv.1 ++ [58] ++ stringify kv.2) kvs)
      ++ [125]
  end.

(** ** JSON.parse *)

(** JSON white space: tab, line feed, carriage return, space. *)
Definition json_ws (c : Z) : bool := (c =? 9) || (c =? 10) || (c =? 13) || (c =? 32).

Fixpoint skip_ws (s : jsstr) : jsstr :=
  match s with
  | c :: s' => if json_ws c then skip_ws s' else s
  | [] => []
  end.

Fixpoint strip_prefix (lit s : jsstr) : option jsstr :=
  match lit, s with
  | [], _ => Some s
  | a :: lit', b :: s' => if a =? b then strip_prefix lit' s' else None
  | _ :: _, [] => None
  end.

Definition hex_value (c : Z) : option Z :=
  if (48 <=? c) && (c <=? 57) then Some (c - 48)
  else if (65 <=? c) && (c <=? 70) then Some (c - 55)
  else if (97 <=? c) && (c <=? 102) then Some (c - 87)
  else None.

(** The one-character escapes of a JSON string. *)
Definition simple_escape (e : Z) : option Z :=
  if e =? 34 then Some 34
  else if e =? 92 then Some 92
  else if e =? 47 then Some 47
  else if e =? 98 then Some 8
  else if e =? 102 then Some 12
  else if e =? 110 then Some 10
  else if e =? 114 then Some 13
  else if e =? 116 then Some 9
  else None.

(** The body of a string literal after its opening quote: the code units it
    denotes and the text after the closing quote. *)
Fixpoint parse_string_body (s : jsstr) : option (jsstr * jsstr) :=
  match s with
  | [] => None
  | c :: s' =>
      if c =? 34 then Some ([], s')
      else if c =? 92 then
        match s' with
        | [] => None
        | e :: s'' =>
            if e =? 117 then
              match s'' with
              | h1 :: h2 :: h3 :: h4 :: r =>
                  match hex_value h1, hex_value h2, hex_value h3, hex_value h4 with
                  | Some a, Some b, Some c', Some d =>
                      let? (t, r') := parse_string_body r in
                      Some ((a * 4096 + b * 256 + c' * 16 + d) :: t, r')
                  | _, _, _, _ => None
                  end
              | _ => None
              end
            else
              match simple_escape e with
              | Some u => let? (t, r') := parse_string_body s'' in Some (u :: t, r')
              | None => None
              end
        end
      else if c <? 32 then None
      else let? (t, r') := parse_string_body s' in Some (c :: t, r')
  end.

Fixpoint span_digits (s : jsstr) : jsstr * jsstr :=
  match s with
  | c :: s' => if is_digit c then let (d, r) := span_digits s' in (c :: d, r) else ([], s)
  | [] => ([], [])
  end.

(** [int]: [0] or a nonzero digit followed by digits. *)
Definition parse_int (s : jsstr) : option (jsstr * jsstr) :=
  match s with
  | c :: r =>
      if c =? 48 then Some ([48], r)
      else if is_digit c then let (ds, r') := span_digits r in Some (c :: ds, r')
      else None
  | [] => None
  end.

(** [frac]: optional, a point followed by at least one digit. *)
Definition parse_frac (s : jsstr) : option (jsstr * jsstr) :=
  match s with
  | c :: r =>
      if c =? 46 then
        match span_digits r with
        | ([], _) => None
        | (ds, r') => Some (ds, r')
        end
      else Some ([], s)
  | [] => Some ([], [])
  end.

(** [exp]: optional, [e] or [E], an optional sign, at least one digit. *)
Definition parse_exp (s : jsstr) : option (Z * jsstr) :=
  match s with
  | c :: r =>
      if (c =? 101) || (c =? 69) then
        let '(neg, r1) :=
          match r with
          | d :: r' => if d =? 45 then (true, r') else if d =? 43 then (false, r') else (false, r)
          | [] => (false, r)
          end in
        match span_digits r1 with
        | ([], _) => None
        | (ds, r2) =>
            let e := Z.of_N (digits_value ds) in
            Some (if neg then - e else e, r2)
        end
      else Some (0, s)
  | [] => Some (0, [])
  end.

Definition parse_number (s : jsstr) : option (decimal * jsstr) :=
  let '(neg, s1) :=
    match s with
    | c :: r => if c =? 45 then (true, r) else (false, s)
    | [] => (false, s)
    end in
  let? (ip, s2) := parse_int s1 in
  let? (fp, s3) := parse_frac s2 in
  let? (e, s4) := parse_exp s3 in
  Some ({| dneg := neg; dmant := digits_value (ip ++ fp);
           dexp := e - Z.of_nat (length fp) |}, s4).

Fixpoint parse_value (fuel : nat) (s : jsstr) : option (jval * jsstr) :=
  match fuel with
  | O => None
  | S f =>
      match skip_ws s with
      | [] => None
      | c :: r =>
          if c =? 123 then
            match skip_ws r with
            | c' :: r' => if c' =? 125 then Some (JObj [], r') else parse_members f r []
            | [] => None
            end
          else if c =? 91 then
            match skip_ws r with
            | c' :: r' => if c' =? 93 then Some (JArr [], r') else parse_elements f r []
            | [] => None
            end
          else if c =? 34 then
            let? (t, r') := parse_string_body r in Some (JStr t, r')
          else if c =? 116 then
            match strip_prefix [114; 117; 101] r with
            | Some r' => Some (JBool true, r') | None => None end
          else if c =? 102 then
            match strip_prefix [97; 108; 115; 101] r with
            | Some r' => Some (JBool false, r') | None => None end
          else if c =? 110 then
            match strip_prefix [117; 108; 108] r with
            | Some r' => Some (JNull, r') | None => None end
          else if (c =? 45) || is_digit c then
            let? (d, r') := parse_number (c :: r) in Some (JNum d, r')
          else None
      end
  end
with parse_elements (fuel : nat) (s : jsstr) (acc : list jval) : option (jval * jsstr) :=
  match fuel with
  | O => None
  | S f =>
      let? (v, r) := parse_value f s in
      match skip_ws r with
      | c :: r' =>
          if c =? 44 then parse_elements f r' (v :: acc)
          else if c =? 93 then Some (JArr (rev (v :: acc)), r')
          else None
      | [] => None
      end
  end
with parse_members (fuel : nat) (s : jsstr) (acc : list (jsstr * jval))
    : option (jval * jsstr) :=
  match fuel with
  | O => None
  | S f =>
      match skip_ws s with
      | c :: r =>
          if c =? 34 then
            let? (k, r1) := parse_string_body r in
            match skip_ws r1 with
            | c1 :: r2 =>
                if c1 =? 58 then
                  let? (v, r3) := parse_value f r2 in
                  match skip_ws r3 with
                  | c2 :: r4 =>
                      if c2 =? 44 then parse_members f r4 ((k, v) :: acc)
                      else if c2 =? 125 then Some (JObj (rev ((k, v) :: acc)), r4)
                      else None
                  | [] => None
                  end
                else None
            | [] => None
            end
          else None
      | [] => None
      end
  end.

(** Property [k] of the object JSON.parse builds from the members [kvs]:
    CreateDataProperty overwrites, so the last member with key [k] wins.
    [None] is a property the object does not have. *)
Fixpoint obj_get (kvs : list (jsstr * jval)) (k : jsstr) : option jval :=
  match kvs with
  | [] => None
  | (k', v) :: kvs' =>
      match obj_get kvs' k with
      | Some w => Some w
      | None => if bool_decide (k' = k) then Some v else None
      end
  end.

(** JSON.parse(text): one value, then only white space.  [None] is the
    SyntaxError that JSON.parse throws. *)
Definition JSON_parse (text : jsstr) : option jval :=
  match parse_value (S (length text)) text with
  | Some (v, r) => if bool_decide (skip_ws r = []) then Some v else None
  | None => None
  end.

Example stringify_ex :
  stringify (JArr [JObj [(js "id"%string, JStr (js "1"%string)); (js "n"%string, JNum (decimal_of_Z 12))];
                   JBool true; JNull])
  = js "[{"%string ++ [34] ++ js "id"%string ++ [34; 58; 34] ++ js "1"%string ++ [34; 44; 34] ++ js "n"%string
    ++ [34] ++ js ":12},true,null]"%string.
Proof. reflexivity. Qed.

Example parse_ex :
  JSON_parse (js " [ 1.5e2 , -0 , {} , [ ] ] "%string)
  = Some (JArr [JNum (mkDecimal false 15 1); JNum (mkDecimal true 0 0); JObj []; JArr []]).
Proof. vm_compute. reflexivity. Qed.

Example parse_bad : JSON_parse (js "[1,]"%string) = None.
Proof. vm_compute. reflexivity. Qed.

(** ** Round trip of strings *)

#[local] Arguments unicode_escape : simpl never.
#[local] Arguments escape_unit : simpl never.

Lemma hex_value_digit n : 0 <= n < 16 -> hex_value (hex_digit n) = Some n.
Proof.
  intros Hn. unfold hex_value, hex_digit. zcases; f_equal; lia.
Qed.

Lemma hex4_split c :
  0 <= c < 65536 ->
  c = c / 4096 mod 16 * 4096 + c / 256 mod 16 * 256 + c / 16 mod 16 * 16 + c mod 16.
Proof.
  intros Hc.
  rewrite (Z.mod_small (c / 4096))
    by (split; [apply Z.div_pos|apply Z.div_lt_upper_bound]; lia).
  pose proof (Z.div_mod c 4096 ltac:(lia)). pose proof (Z.mod_pos_bound c 4096 ltac:(lia)).
  pose proof (Z.div_mod c 256 ltac:(lia)). pose proof (Z.mod_pos_bound c 256 ltac:(lia)).
  pose proof (Z.div_mod c 16 ltac:(lia)). pose proof (Z.mod_pos_bound c 16 ltac:(lia)).
  pose proof (Z.div_mod (c / 256) 16 ltac:(lia)).
  pose proof (Z.mod_pos_bound (c / 256) 16 ltac:(lia)).
  pose proof (Z.div_mod (c / 16) 16 ltac:(lia)).
  pose proof (Z.mod_pos_bound (c / 16) 16 ltac:(lia)).
  assert (c / 256 / 16 = c / 4096) by (rewrite Z.div_div by lia; reflexivity).
  assert (c / 16 / 16 = c / 256) by (rewrite Z.div_div by lia; reflexivity).
  lia.
Qed.

(** A [\uXXXX] escape written by UnicodeEscape reads back as its code unit. *)
Lemma unicode_escape_parse c t :
  0 <= c < 65536 ->
  parse_string_body (unicode_escape c ++ t)
  = let? (x, r) := parse_string_body t in Some (c :: x, r).
Proof.
  intros Hc. unfold unicode_escape. simpl.
  rewrite !hex_value_digit by (apply Z.mod_pos_bound; lia).
  rewrite <- hex4_split by done. done.
Qed.

Lemma escape_unit_parse c t :
  cu_wf c = true -> is_high_surrogate c = false -> is_low_surrogate c = false ->
  parse_string_body (escape_unit c ++ t)
  = let? (x, r) := parse_string_body t in Some (c :: x, r).
Proof.
  unfold cu_wf. rewrite andb_true_iff, Z.leb_le, Z.ltb_lt. intros Hc _ _.
  unfold escape_unit.
  destruct (Z.eqb_spec c 8) as [->|]; [done|].
  destruct (Z.eqb_spec c 9) as [->|]; [done|].
  destruct (Z.eqb_spec c 10) as [->|]; [done|].
  destruct (Z.eqb_spec c 12) as [->|]; [done|].
  destruct (Z.eqb_spec c 13) as [->|]; [done|].
  destruct (Z.eqb_spec c 34) as [->|]; [done|].
  destruct (Z.eqb_spec c 92) as [->|]; [done|].
  destruct (Z.ltb_spec c 32); [by apply unicode_escape_parse|].
  simpl. destruct (Z.eqb_spec c 34); [lia|]. destruct (Z.eqb_spec c 92); [lia|].
  destruct (Z.ltb_spec c 32); [lia|]. done.
Qed.

Lemma raw_unit_parse c t :
  is_high_surrogate c = true \/ is_low_surrogate c = true ->
  parse_string_body (c :: t)
  = let? (x, r) := parse_string_body t in Some (c :: x, r).
Proof.
  unfold is_high_surrogate, is_low_surrogate. rewrite !andb_true_iff, !Z.leb_le.
  intros Hc. simpl.
  destruct (Z.eqb_spec c 34); [lia|]. destruct (Z.eqb_spec c 92); [lia|].
  destruct (Z.ltb_spec c 32); [lia|]. done.
Qed.

Lemma wf_range c : cu_wf c = true -> 0 <= c < 65536.
Proof. unfold cu_wf. rewrite andb_true_iff, Z.leb_le, Z.ltb_lt. done. Qed.

#[local] Opaque unicode_escape escape_unit.

(** QuoteJSONString reads back as the string it quoted, for every string of
    code units, lone surrogates included. *)
Lemma quote_units_parse s rest :
  jsstr_wf s = true ->
  parse_string_body (quote_units s ++ 34 :: rest) = Some (s, rest).
Proof.
  induction s as [s IH] using (induction_ltof1 _ (@length Z)); unfold ltof in IH.
  destruct s as [|c s']; [done|]. simpl. rewrite andb_true_iff. intros [Hc Hs'].
  destruct (is_high_surrogate c) eqn:Hh.
  - destruct s' as [|d s''].
    + rewrite (unicode_escape_parse c) by (by apply wf_range). done.
    + simpl in Hs'. apply andb_true_iff in Hs' as [Hd Hs''].
      destruct (is_low_surrogate d) eqn:Hl.
      * rewrite <- !app_comm_cons, raw_unit_parse by auto. rewrite raw_unit_parse by auto.
        rewrite IH by (simpl; lia || done). done.
      * rewrite <- app_assoc, (unicode_escape_parse c) by (by apply wf_range).
        rewrite IH; [done|simpl; lia|]. simpl. by rewrite Hd, Hs''.
  - destruct (is_low_surrogate c) eqn:Hl.
    + rewrite <- app_assoc, (unicode_escape_parse c) by (by apply wf_range).
      rewrite IH by (simpl; lia || done). done.
    + rewrite <- app_assoc, escape_unit_parse by done.
      rewrite IH by (simpl; lia || done). done.
Qed.

(** ** Round trip of numbers *)

(** What may follow a value in the output of [stringify]: nothing, a comma,
    or a closing bracket or brace. *)
Definition delim (rest : jsstr) : bool :=
  match rest with
  | [] => true
  | c :: _ => (c =? 44) || (c =? 93) || (c =? 125)
  end.

Lemma delim_not_digit c rest : delim (c :: rest) = true -> is_digit c = false.
Proof.
  simpl. unfold is_digit. intros H. repeat rewrite orb_true_iff in H.
  rewrite !Z.eqb_eq in H. destruct H as [[-> | ->] | ->]; done.
Qed.

Lemma span_digits_app D rest :
  Forall (fun c => is_digit c = true) D -> delim rest = true ->
  span_digits (D ++ rest) = (D, rest).
Proof.
  intros HD Hr. induction HD as [|c D Hc _ IH]; simpl.
  - destruct rest as [|c rest]; [done|]. simpl. by rewrite (delim_not_digit c rest).
  - by rewrite Hc, IH.
Qed.

Lemma parse_frac_delim rest : delim rest = true -> parse_frac rest = Some ([], rest).
Proof.
  destruct rest as [|c rest]; [done|]. intros H. simpl.
  simpl in H. zcases; by repeat rewrite orb_true_iff in H.
Qed.

Lemma parse_exp_delim rest : delim rest = true -> parse_exp rest = Some (0, rest).
Proof.
  destruct rest as [|c rest]; [done|]. intros H. simpl.
  simpl in H. zcases; by repeat rewrite orb_true_iff in H.
Qed.

(** Digits of a number read back by the [int] rule of the grammar. *)
Lemma parse_int_digits n rest :
  delim rest = true -> parse_int (digits_N n ++ rest) = Some (digits_N n, rest).
Proof.
  intros Hr. destruct (N.eq_dec n 0) as [->|Hn]; [by rewrite digits_N_0|].
  pose proof (digits_N_digits n) as Hd.
  destruct (digits_N_head n Hn) as (c & D & HD & Hc). rewrite HD in Hd |- *.
  inversion Hd as [|? ? Hc' HD']; subst. simpl.
  destruct (Z.eqb_spec c 48); [done|]. rewrite Hc'.
  rewrite span_digits_app by done. done.
Qed.

(** [JSON.parse] reads back the number that [JSON.stringify] wrote for an
    integer below 10^21. *)
Lemma parse_number_int z rest :
  Z.abs z < 10 ^ 21 -> delim rest = true ->
  parse_number (number_toString (decimal_of_Z z) ++ rest) = Some (decimal_of_Z z, rest).
Proof.
  intros Hz Hr. pose proof (number_toString_int z Hz) as E.
  unfold Number_toString in E. rewrite E, <- app_assoc.
  unfold parse_number.
  destruct (Z.ltb_spec z 0).
  - simpl. rewrite parse_int_digits, parse_frac_delim, parse_exp_delim by done.
    rewrite app_nil_r, digits_value_N. unfold decimal_of_Z.
    destruct (Z.ltb_spec z 0); [|lia]. done.
  - assert (Hp : parse_int (digits_N (Z.to_N (Z.abs z)) ++ rest)
                 = Some (digits_N (Z.to_N (Z.abs z)), rest)) by (by apply parse_int_digits).
    pose proof (digits_N_digits (Z.to_N (Z.abs z))) as Hd.
    destruct (digits_N_cons (Z.to_N (Z.abs z))) as (c & D & HD).
    rewrite HD in Hp, Hd |- *. inversion Hd as [|? ? Hc' _]; subst.
    unfold is_digit in Hc'. apply andb_true_iff in Hc' as [H1 _]. apply Z.leb_le in H1.
    simpl app in Hp |- *. cbv beta iota zeta. destruct (Z.eqb_spec c 45); [lia|]. rewrite Hp.
    rewrite parse_frac_delim, parse_exp_delim by done.
    rewrite app_nil_r, <- HD, digits_value_N. unfold decimal_of_Z.
    destruct (Z.ltb_spec z 0); [lia|]. done.
Qed.

(** ** Round trip of values *)

(** The values that [JSON.stringify] writes and [JSON.parse] reads back
    unchanged: well-formed strings and integers below 10^21 in the
    canonical decimal form ([decimal_of_Z]). *)
Definition num_canon (d : decimal) : bool :=
  (dexp d =? 0) && (dmant d <? 10 ^ 21)%N && negb (dneg d && (dmant d =? 0)%N).

Fixpoint jcanon (v : jval) : bool :=
  match v with
  | JNull | JBool _ => true
  | JNum d => num_canon d
  | JStr s => jsstr_wf s
  | JArr l => forallb jcanon l
  | JObj kvs => forallb (fun kv => jsstr_wf kv.1 && jcanon kv.2) kvs
  end.

(** The fuel the parser needs for a value. *)
Fixpoint jsize (v : jval) : nat :=
  match v with
  | JArr l => S (list_sum (map (fun x => S (jsize x)) l))
  | JObj kvs => S (list_sum (map (fun kv => S (jsize kv.2)) kvs))
  | _ => 1
  end.

Lemma num_canon_int d :
  num_canon d = true -> exists z, d = decimal_of_Z z /\ Z.abs z < 10 ^ 21.
Proof.
  destruct d as [neg m e]. unfold num_canon. simpl.
  rewrite !andb_true_iff, negb_true_iff, andb_false_iff, Z.eqb_eq, N.ltb_lt, N.eqb_neq.
  intros [[-> Hm] Hneg].
  exists (if neg then - Z.of_N m else Z.of_N m). unfold decimal_of_Z.
  destruct neg; [destruct Hneg as [?|Hneg]; [done|]|];
    (split; [f_equal; zcases | lia]).
Qed.

Lemma number_head z :
  Z.abs z < 10 ^ 21 ->
  exists c r, number_toString (decimal_of_Z z) = c :: r /\ (c = 45 \/ is_digit c = true).
Proof.
  intros Hz. pose proof (number_toString_int z Hz) as E. unfold Number_toString in E.
  rewrite E. destruct (z <? 0).
  - eexists _, _. split; [reflexivity|by left].
  - destruct (digits_N_cons (Z.to_N (Z.abs z))) as (c & D & HD).
    pose proof (digits_N_digits (Z.to_N (Z.abs z))) as Hd. rewrite HD in Hd |- *.
    inversion Hd; subst. exists c, D. split; [done|by right].
Qed.

Lemma parse_value_number f c r :
  c = 45 \/ is_digit c = true ->
  parse_value (S f) (c :: r) = let? (d, r') := parse_number (c :: r) in Some (JNum d, r').
Proof.
  intros Hc.
  assert (45 <= c <= 57) as Hr.
  { unfold is_digit in Hc. rewrite andb_true_iff, !Z.leb_le in Hc. lia. }
  assert (json_ws c = false) as Hw by (unfold json_ws; zcases).
  assert ((c =? 45) || is_digit c = true) as Hn.
  { destruct Hc as [-> | ->]; [done|apply orb_true_r]. }
  cbn [parse_value skip_ws]. rewrite Hw.
  repeat match goal with
         | |- context [Z.eqb c ?k] =>
             tryif (assert (k <> 45) by lia) then rewrite (proj2 (Z.eqb_neq c k)) by lia
             else fail
         end.
  by rewrite Hn.
Qed.

(** The first character of what [stringify] writes is neither white space
    nor a closing bracket or brace. *)
Lemma stringify_head v :
  jcanon v = true ->
  exists c r, stringify v = c :: r /\ json_ws c = false /\ c <> 93 /\ c <> 125.
Proof.
  destruct v as [| [] | d | s | l | kvs]; simpl; intros Hv;
    try (eexists _, _; split; [reflexivity|done]).
  destruct (num_canon_int d Hv) as (z & -> & Hz).
  destruct (number_head z Hz) as (c & r & -> & Hc). exists c, r.
  unfold is_digit, json_ws in *. rewrite andb_true_iff, !Z.leb_le in Hc.
  split; [done|]. zcases.
Qed.

Lemma skip_ws_stringify v rest :
  jcanon v = true -> skip_ws (stringify v ++ rest) = stringify v ++ rest.
Proof.
  intros Hv. destruct (stringify_head v Hv) as (c & r & -> & Hc & _). simpl. by rewrite Hc.
Qed.

Lemma parse_value_arr f r :
  parse_value (S f) (91 :: r)
  = match skip_ws r with
    | c' :: r' => if c' =? 93 then Some (JArr [], r') else parse_elements f r []
    | [] => None
    end.
Proof. reflexivity. Qed.

Lemma parse_value_obj f r :
  parse_value (S f) (123 :: r)
  = match skip_ws r with
    | c' :: r' => if c' =? 125 then Some (JObj [], r') else parse_members f r []
    | [] => None
    end.
Proof. reflexivity. Qed.

Lemma join_head_eq v l x :
  jcanon v = true ->
  skip_ws (join_comma (map stringify (v :: l)) ++ x) = join_comma (map stringify (v :: l)) ++ x.
Proof.
  intros Hv. destruct l as [|w l]; cbn [map join_comma].
  - by apply skip_ws_stringify.
  - rewrite <- app_assoc. by apply skip_ws_stringify.
Qed.

Lemma join_head v l x :
  jcanon v = true ->
  exists c r, skip_ws (join_comma (map stringify (v :: l)) ++ x) = c :: r /\ c <> 93 /\ c <> 125.
Proof.
  intros Hv. rewrite join_head_eq by done.
  destruct (stringify_head v Hv) as (c & r & Ev & _ & H93 & H125).
  destruct l as [|w l]; cbn [map join_comma]; [|rewrite <- app_assoc]; rewrite Ev;
    eexists _, _; split_and!; [reflexivity|done|done|reflexivity|done|done].
Qed.

Lemma members_head k v l x :
  exists r, join_comma (map (fun kv => quote kv.1 ++ [58] ++ stringify kv.2) ((k, v) :: l)) ++ x
            = 34 :: r.
Proof. destruct l; eexists; reflexivity. Qed.

(** [v] parses back from its text followed by any delimiter, with any fuel
    from [jsize v] on. *)
Definition parses_back (v : jval) : Prop :=
  forall f rest, (jsize v <= f)%nat -> delim rest = true ->
  parse_value f (stringify v ++ rest) = Some (v, rest).

Lemma member_text k v x :
  quote k ++ [58] ++ stringify v ++ x = 34 :: quote_units k ++ 34 :: 58 :: stringify v ++ x.
Proof. unfold quote. simpl. rewrite <- !app_assoc. done. Qed.

Lemma parse_elements_ok l :
  Forall (fun v => jcanon v = true -> parses_back v) l -> forallb jcanon l = true ->
  forall f acc rest, l <> [] ->
  (list_sum (map (fun x => S (jsize x)) l) <= f)%nat -> delim rest = true ->
  parse_elements f (join_comma (map stringify l) ++ 93 :: rest) acc
  = Some (JArr (rev acc ++ l), rest).
Proof.
  induction 1 as [|v l Hv Hl IH]; intros Hc f acc rest Hne Hf Hr; [done|].
  simpl in Hc, Hf. apply andb_true_iff in Hc as [Hcv Hcl].
  destruct f as [|f]; [lia|]. cbn [parse_elements].
  destruct l as [|w l'].
  - cbn [map join_comma]. rewrite (Hv Hcv f (93 :: rest)) by (done || lia).
    simpl. by rewrite <- ?app_assoc.
  - change (join_comma (map stringify (v :: w :: l')))
      with (stringify v ++ 44 :: join_comma (map stringify (w :: l'))).
    rewrite <- app_assoc, <- app_comm_cons.
    rewrite (Hv Hcv f) by (done || lia). simpl skip_ws. cbv iota beta.
    rewrite IH by (done || simpl in *; lia).
    simpl. by rewrite <- ?app_assoc.
Qed.

Lemma parse_members_ok kvs :
  Forall (fun kv => jcanon kv.2 = true -> parses_back kv.2) kvs ->
  forallb (fun kv => jsstr_wf kv.1 && jcanon kv.2) kvs = true ->
  forall f acc rest, kvs <> [] ->
  (list_sum (map (fun kv => S (jsize kv.2)) kvs) <= f)%nat -> delim rest = true ->
  parse_members f
    (join_comma (map (fun kv => quote kv.1 ++ [58] ++ stringify kv.2) kvs) ++ 125 :: rest) acc
  = Some (JObj (rev acc ++ kvs), rest).
Proof.
  induction 1 as [|[k v] l Hv Hl IH]; intros Hc f acc rest Hne Hf Hr; [done|].
  simpl in Hc, Hf, Hv. rewrite !andb_true_iff in Hc. destruct Hc as [[Hk Hcv] Hcl].
  destruct f as [|f]; [lia|].
  destruct l as [|w l'].
  - assert (E : join_comma (map (fun kv => quote kv.1 ++ [58] ++ stringify kv.2) [(k, v)])
                ++ 125 :: rest = 34 :: quote_units k ++ 34 :: 58 :: stringify v ++ 125 :: rest)
      by (simpl; unfold quote; rewrite <- !app_assoc; reflexivity).
    rewrite E. cbn [parse_members]. simpl skip_ws. cbv iota beta.
    rewrite quote_units_parse by done. simpl skip_ws. cbv iota beta.
    rewrite (Hv Hcv f (125 :: rest)) by (done || lia).
    simpl. by rewrite <- ?app_assoc.
  - set (F := fun kv : jsstr * jval => quote kv.1 ++ [58] ++ stringify kv.2).
    assert (E : join_comma (map F ((k, v) :: w :: l')) ++ 125 :: rest
                = 34 :: quote_units k ++ 34 :: 58 :: stringify v ++ 44 ::
                  join_comma (map F (w :: l')) ++ 125 :: rest)
      by (cbn [map join_comma]; unfold F at 1, quote; simpl; rewrite <- !app_assoc; reflexivity).
    rewrite E. cbn [parse_members]. simpl skip_ws. cbv iota beta.
    rewrite quote_units_parse by done. simpl skip_ws. cbv iota beta.
    rewrite (Hv Hcv f) by (done || lia). simpl skip_ws. cbv iota beta.
    rewrite IH by (done || simpl in *; lia).
    simpl. by rewrite <- ?app_assoc.
Qed.

Lemma stringify_parses_back v : jcanon v = true -> parses_back v.
Proof.
  induction v as [| b | d | s | l IH | kvs IH] using jval_ind';
    intros Hv f rest Hf Hr; destruct f as [|f]; simpl in Hf; try lia.
  - done.
  - by destruct b.
  - destruct (num_canon_int d Hv) as (z & -> & Hz). cbn [stringify].
    destruct (number_head z Hz) as (c & r & Ec & Hc). rewrite Ec, <- app_comm_cons.
    rewrite parse_value_number by done. rewrite app_comm_cons, <- Ec.
    by rewrite parse_number_int.
  - simpl. unfold quote. rewrite <- !app_assoc. simpl. by rewrite quote_units_parse.
  - destruct l as [|v l]; [done|]. simpl in Hv. apply andb_true_iff in Hv as [Hv1 Hv2].
    assert (E : stringify (JArr (v :: l)) ++ rest
                = 91 :: join_comma (map stringify (v :: l)) ++ 93 :: rest)
      by (cbn [stringify]; rewrite <- !app_assoc; reflexivity).
    rewrite E, parse_value_arr.
    destruct (join_head v l (93 :: rest) Hv1) as (c & r & -> & Hc93 & _).
    rewrite (proj2 (Z.eqb_neq c 93)) by done.
    apply (parse_elements_ok (v :: l) IH); [simpl; by rewrite Hv1, Hv2|done|lia|done].
  - destruct kvs as [|[k v] l]; [done|]. simpl in Hv.
    assert (E : stringify (JObj ((k, v) :: l)) ++ rest
                = 123 :: join_comma (map (fun kv => quote kv.1 ++ [58] ++ stringify kv.2)
                                         ((k, v) :: l)) ++ 125 :: rest)
      by (cbn [stringify]; rewrite <- !app_assoc; reflexivity).
    rewrite E, parse_value_obj.
    destruct (members_head k v l (125 :: rest)) as (r & Er).
    rewrite Er. cbn [skip_ws json_ws Z.eqb Pos.eqb orb]. cbv iota beta.
    rewrite <- Er. apply (parse_members_ok ((k, v) :: l) IH); [done|done|lia|done].
Qed.

(** ** The fuel of JSON_parse is enough for what stringify writes *)

Lemma join_comma_length xs :
  (list_sum (map (fun x => S (length x)) xs) <= S (length (join_comma xs)))%nat.
Proof.
  induction xs as [|x [|y xs] IH]; simpl; [lia|lia|].
  rewrite length_app. simpl in *. lia.
Qed.

Lemma jsize_le_length v : jcanon v = true -> (jsize v <= length (stringify v))%nat.
Proof.
  induction v as [| b | d | s | l IH | kvs IH] using jval_ind'; intros Hv; cbn [jsize stringify].
  - simpl; lia.
  - destruct b; simpl; lia.
  - destruct (num_canon_int d Hv) as (z & -> & Hz).
    destruct (number_head z Hz) as (c & r & -> & _). simpl. lia.
  - unfold quote. rewrite !length_app. simpl. lia.
  - rewrite !length_app. cbn [length].
    pose proof (join_comma_length (map stringify l)) as Hj. rewrite map_map in Hj.
    enough (list_sum (map (fun x => S (jsize x)) l)
            <= list_sum (map (fun x => S (length (stringify x))) l))%nat by lia.
    apply list_sum_map_le. simpl in Hv. rewrite forallb_forall in Hv.
    rewrite List.Forall_forall in IH |- *. intros x Hx. apply le_n_S, IH, Hv; done.
  - rewrite !length_app. cbn [length].
    pose proof (join_comma_length
      (map (fun kv => quote kv.1 ++ [58] ++ stringify kv.2) kvs)) as Hj.
    rewrite map_map in Hj.
    enough (list_sum (map (fun kv => S (jsize kv.2)) kvs)
            <= list_sum (map (fun kv => S (length (quote kv.1 ++ [58%Z] ++ stringify kv.2))) kvs))%nat
      by lia.
    apply list_sum_map_le. simpl in Hv. rewrite forallb_forall in Hv.
    rewrite List.Forall_forall in IH |- *. intros kv Hkv.
    specialize (Hv kv Hkv). apply andb_true_iff in Hv as [_ Hv].
    specialize (IH kv Hkv Hv). unfold quote. rewrite !length_app. simpl. lia.
Qed.

(** ** JSON.parse(JSON.stringify(v)) = v *)

Lemma stringify_roundtrip v : jcanon v = true -> JSON_parse (stringify v) = Some v.
Proof.
  intros Hv. unfold JSON_parse.
  pose proof (stringify_parses_back v Hv (S (length (stringify v))) []) as H.
  rewrite app_nil_r in H. rewrite H; [done| |done].
  pose proof (jsize_le_length v Hv). lia.
Qed.

(** C5: JSON.parse reads back exactly the value that JSON.stringify wrote, for
    every value with well-formed strings and integer numbers below 10^21
    (arrays and objects nested to any depth). *)
Theorem JSON_parse_stringify v : jcanon v = true -> JSON_parse (stringify v) = Some v.
Proof. apply stringify_roundtrip. Qed.

(** ** The fuel of JSON.parse

    [parse_value] runs on fuel.  Every call consumes at least one code unit
    and a nested call is entered only after an opening bracket, so a parse
    that succeeds with some fuel succeeds with as much fuel as it consumes
    code units, and with any more.  [JSON_parse] gives [length text + 1]. *)

Section Fuel.
Local Open Scope nat_scope.

(** Case on every scrutinee of a [match] or [if] in the goal, innermost
    first, skipping constructors, remembering the equation, and reduce the
    branches. *)
Local Ltac walk :=
  repeat (match goal with
          | |- context [match ?x with _ => _ end] =>
              tryif is_var x then destruct x
              else lazymatch x with
                   | context [match _ with _ => _ end] => fail
                   | true => fail | false => fail
                   | @Some _ _ => fail | @None _ => fail | @pair _ _ _ _ => fail
                   | @nil _ => fail | @cons _ _ _ => fail
                   | _ => let E := fresh "E" in destruct x eqn:E
                   end
          end; cbv beta iota).

Lemma skip_ws_cons s c r : skip_ws s = c :: r -> length r < length s.
Proof.
  induction s as [|c0 s IH]; simpl; [done|].
  destruct (json_ws c0); [intros H; specialize (IH H); lia | intros [= -> ->]; lia].
Qed.

Lemma strip_prefix_length lit s r : strip_prefix lit s = Some r -> length r <= length s.
Proof.
  revert s. induction lit as [|a lit IH]; intros [|b s] H; simpl in H; try discriminate.
  - by injection H as <-.
  - injection H as <-. simpl. lia.
  - destruct (a =? b)%Z; [apply IH in H; simpl; lia | discriminate].
Qed.

Lemma parse_string_body_length s t r :
  parse_string_body s = Some (t, r) -> length r < length s.
Proof.
  revert t r.
  induction s as [s IH] using (induction_ltof1 _ (@length Z)); unfold ltof in IH.
  intros t r. destruct s as [|c s]; [discriminate|]. cbn [parse_string_body].
  walk; intros H; simplify_eq/=; try lia;
    match goal with
    | E : parse_string_body ?a = Some _ |- _ =>
        let L := fresh in
        unshelve epose proof (IH a _ _ _ E) as L; simpl in *; lia
    end.
Qed.

Lemma span_digits_length s d r : span_digits s = (d, r) -> length r <= length s.
Proof.
  revert d r. induction s as [|c s IH]; intros d r; simpl; [intros [= <- <-]; done|].
  destruct (is_digit c); [|intros [= <- <-]; done].
  destruct (span_digits s) as [d' r'] eqn:E. intros [= <- <-].
  specialize (IH _ _ eq_refl). lia.
Qed.

Lemma parse_number_length s d r : parse_number s = Some (d, r) -> length r < length s.
Proof.
  unfold parse_number, parse_int, parse_frac, parse_exp.
  destruct s as [|c s]; [discriminate|].
  walk; intros H;
    repeat match goal with
           | E : span_digits _ = (_, _) |- _ => apply span_digits_length in E
           end; simplify_eq/=; lia.
Qed.

(** Record the length fact of every parsing step in the context:
    [tv], [te], [tm] give it for the three recursive parsers. *)
Local Ltac len_facts tv te tm :=
  repeat match goal with
         | E : skip_ws _ = _ :: _ |- _ => pose proof (skip_ws_cons _ _ _ E); revert E
         | E : parse_string_body _ = Some (_, _) |- _ =>
             pose proof (parse_string_body_length _ _ _ E); revert E
         | E : strip_prefix _ _ = Some _ |- _ => pose proof (strip_prefix_length _ _ _ E); revert E
         | E : parse_number _ = Some (_, _) |- _ =>
             pose proof (parse_number_length _ _ _ E); revert E
         | E : parse_value _ _ = Some (_, _) |- _ =>
             let L := fresh in pose proof E as L; apply tv in L; revert E
         | E : parse_elements _ _ _ = Some (_, _) |- _ =>
             let L := fresh in pose proof E as L; apply te in L; revert E
         | E : parse_members _ _ _ = Some (_, _) |- _ =>
             let L := fresh in pose proof E as L; apply tm in L; revert E
         end; intros; cbn [length] in *.

(** Every successful parse consumes at least one code unit. *)
Lemma parse_rest_lt f :
  (forall s v r, parse_value f s = Some (v, r) -> length r < length s) /\
  (forall s acc v r, parse_elements f s acc = Some (v, r) -> length r < length s) /\
  (forall s acc v r, parse_members f s acc = Some (v, r) -> length r < length s).
Proof.
  induction f as [|f (IHv & IHe & IHm)]; [split_and!; discriminate|].
  split_and!; intros *; cbn [parse_value parse_elements parse_members];
    walk; intros H; simplify_eq; len_facts IHv IHe IHm; lia.
Qed.

Lemma parse_value_rest {f} s v r :
  parse_value f s = Some (v, r) -> length r < length s.
Proof. apply parse_rest_lt. Qed.
Lemma parse_elements_rest {f} s acc v r :
  parse_elements f s acc = Some (v, r) -> length r < length s.
Proof. apply parse_rest_lt. Qed.
Lemma parse_members_rest {f} s acc v r :
  parse_members f s acc = Some (v, r) -> length r < length s.
Proof. apply parse_rest_lt. Qed.

(** After the case analysis of a successful parse with fuel [S f], replay
    it on the goal with fuel [S f'], and close the recursive call with the
    induction hypotheses. *)
Local Ltac fuel_leaf IHv IHe IHm :=
  len_facts parse_value_rest parse_elements_rest parse_members_rest;
  cbn [parse_value parse_elements parse_members];
  repeat match goal with
         | E : ?a = _ |- context [?a] => rewrite E
         | E : parse_value _ ?t = Some _ |- context [parse_value ?g ?t] =>
             rewrite (IHv _ _ _ E g) by lia
         end; cbv beta iota;
  first [ reflexivity
        | eapply IHe; [eassumption | lia]
        | eapply IHm; [eassumption | lia] ].

(** A parse that succeeds with fuel [f] succeeds with the same result with
    any fuel at least the number of code units it consumes. *)
Lemma parse_fuel_enough f :
  (forall s v r, parse_value f s = Some (v, r) ->
     forall f', length s - length r <= f' -> parse_value f' s = Some (v, r)) /\
  (forall s acc v r, parse_elements f s acc = Some (v, r) ->
     forall f', length s - length r <= f' -> parse_elements f' s acc = Some (v, r)) /\
  (forall s acc v r, parse_members f s acc = Some (v, r) ->
     forall f', length s - length r <= f' -> parse_members f' s acc = Some (v, r)).
Proof.
  induction f as [|f (IHv & IHe & IHm)]; [split_and!; discriminate|].
  split_and!; intros * H f' Hf';
    pose proof (parse_rest_lt (S f)) as (Lv & Le & Lm);
    (destruct f' as [|f'];
      [first [apply Lv in H | apply Le in H | apply Lm in H]; lia|]);
    cbn [parse_value parse_elements parse_members] in H; revert H;
    walk; intros H; simplify_eq; fuel_leaf IHv IHe IHm.
Qed.

End Fuel.

(** JSON.parse accepts a text with a value exactly when the
    recursive-descent parser, run with some amount of fuel, reads that value
    followed only by white space: the fuel [length text + 1] that
    [JSON_parse] gives never makes a parse fail. *)
Theorem JSON_parse_adequate text v :
  JSON_parse text = Some v <->
  exists f r, parse_value f text = Some (v, r) /\ skip_ws r = [].
Proof.
  unfold JSON_parse. split.
  - destruct (parse_value _ text) as [[v' r]|] eqn:Ep; [|discriminate].
    case_bool_decide; intros E; simplify_eq; eauto.
  - intros (f & r & H & Hr).
    rewrite (proj1 (parse_fuel_enough f) _ _ _ H) by lia.
    by rewrite bool_decide_true.
Qed.

(** ** Witnesses *)

(** An object with a string holding a backslash, a quote, a lone surrogate
    and a line feed, and an array of a negative number, a boolean, null. *)
Definition sample_value : jval :=
  JObj [(js "text", JStr [92; 34; 55357; 10]);
        (js "n", JArr [JNum (decimal_of_Z (-7)); JBool false; JNull])].

Lemma JSON_parse_stringify_witness :
  jcanon sample_value = true /\ JSON_parse (stringify sample_value) = Some sample_value.
Proof. split; [reflexivity|]. apply JSON_parse_stringify. reflexivity. Defined.

End Json.
