(* ===== verification/Storage.v ===== *)
(** * What the component needs of localStorage

    [TodoApp] calls [localStorage.getItem(STORAGE_KEY)] once on mount and
    [localStorage.setItem(STORAGE_KEY, ...)] after every change of [todos]
    (src/src/index.tsx lines 14, 22, 29).  The component's theorems in
    [App.v] are proved against the interface below: a store with [getItem]
    and [setItem] and the two laws of a key-value map.  The browser's
    localStorage is the instance [gmap_storage]: a finite map from string
    keys to string values, as the Web Storage API describes it.  Quota
    errors of [setItem] are left to [Quota.v], which runs the component
    on this instance with a quota. *)

From stdpp Require Import base list gmap.
From Stdlib Require Import ZArith.
From S2P Require Import Prelude JsString.
Import JsString.

(** The operations the component calls. *)
Class Storage (S : Type) := {
  getItem : S -> jsstr -> option jsstr;
  setItem : S -> jsstr -> jsstr -> S
}.

(** The laws a client of [Storage] relies on. *)
Class StorageLaws (S : Type) `{Storage S} := {
  getItem_setItem_eq : forall s k v, getItem (setItem s k v) k = Some v;
  getItem_setItem_ne : forall s k k' v, k <> k' -> getItem (setItem s k v) k' = getItem s k'
}.

(** [localStorage]: keys and values are strings. *)
#[export] Instance gmap_storage : Storage (gmap jsstr jsstr) := {
  getItem s k := s !! k;
  setItem s k v := <[k := v]> s
}.

#[export] Instance gmap_storage_laws : StorageLaws (gmap jsstr jsstr).
Proof.
  split.
  - intros s k v. simpl. apply lookup_insert_eq.
  - intros s k k' v Hk. simpl. by apply lookup_insert_ne.
Qed.


#[export] Hint Resolve getItem_setItem_eq : todo.

