(* ===== verification/App.v ===== *)
(** * The TodoApp component and its React runtime

    [TodoApp] (src/src/index.tsx lines 16-165) keeps three pieces of React
    state, [todos], [newTodo] and [filter] (lines 17-19), and shares one
    store, localStorage, with every other instance of the component.  This
    file models:
    - [Comp], the component's state, and a store [S] of any type with the
      [Storage] interface;
    - the updates a handler queues ([Update]: [setTodos] with an updater
      or a value, [setNewTodo], [setFilter]) and [commit], which applies
      them in order as React does and then runs the effect of lines 28-30
      when [todos] changed identity (every [setTodos] builds a new array);
    - the handlers [addTodo], [toggleTodo], [deleteTodo], [clearCompleted]
      and the inline handlers of the JSX (lines 32-58, 74-160), as
      functions from the rendered state to the queued updates;
    - the rendered controls ([available]): the Add button is disabled on a
      blank draft, a row's toggle and delete buttons exist only for the
      rows of [filteredTodos], the Clear completed button only when
      [completedCount > 0];
    - the mount: the effect of lines 21-26 ([getItem], [JSON.parse],
      [setTodos]) then the save effect with the initial empty list, then
      the re-render with the loaded value and its save; and the same under
      React's StrictMode, which runs the mount effects twice before the
      re-render;
    - a step relation of user events and the states reachable from a
      mount.

    A JavaScript exception that escapes (JSON.parse on malformed text, or
    [todos.filter] on a parsed value that is not an array) is the outcome
    [MountCrash]; React then unmounts the component.  When an effect
    throws, the remaining effects of the same component in that commit do
    not run.  A parsed array whose elements are not saved records is the
    outcome [MountUnmodelled] of this model.  [Untyped.v] follows the
    component on such arrays with JavaScript's rules, and proves that it
    agrees with this model on lists of records. *)

From Stdlib Require Import String.
From stdpp Require Import base list gmap.
From Stdlib Require Import ZArith Lia.
From S2P Require Import Prelude JsString JsNumber Json Todo Storage.
Import JsString JsNumber Json Todo.

Module App.
Open Scope Z_scope.

(** [const STORAGE_KEY = 'zos-todos'] *)
Definition STORAGE_KEY : jsstr := js "zos-todos".

(** ** State and queued updates *)

Record Comp := mkComp {
  todos : list Todo;
  newTodo : jsstr;
  filter : Filter
}.

(** [useState<Todo[]>([])], [useState('')], [useState('all')] *)
Definition initial_comp : Comp := {| todos := []; newTodo := []; filter := All |}.

Inductive Update :=
  | SetTodos (f : list Todo -> list Todo)
  | SetNewTodo (s : jsstr)
  | SetFilter (f : Filter).

Definition apply_update (c : Comp) (u : Update) : Comp :=
  match u with
  | SetTodos f => {| todos := f (todos c); newTodo := newTodo c; filter := filter c |}
  | SetNewTodo s => {| todos := todos c; newTodo := s; filter := filter c |}
  | SetFilter f => {| todos := todos c; newTodo := newTodo c; filter := f |}
  end.

Definition is_set_todos (u : Update) : bool :=
  match u with SetTodos _ => true | _ => false end.

Section Runtime.
Context {S : Type} `{Storage S}.

(** [useEffect(() => localStorage.setItem(STORAGE_KEY,
    JSON.stringify(todos)), [todos])] *)
Definition save_effect (c : Comp) (s : S) : S :=
  setItem s STORAGE_KEY (serialize (todos c)).

(** React applies the queued updates in order, re-renders, and runs the
    save effect when the [todos] dependency is a new array. *)
Definition commit (c : Comp) (s : S) (us : list Update) : Comp * S :=
  let c' := fold_left apply_update us c in
  if existsb is_set_todos us then (c', save_effect c' s) else (c', s).

(** ** Handlers *)

(** [addTodo]: the guard [if (!newTodo.trim()) return], then the new
    record prepended and the draft cleared. *)
Definition addTodo (c : Comp) (now1 now2 : Z) : list Update :=
  if negb (truthy (trim (newTodo c))) then []
  else [SetTodos (add_update (new_todo (newTodo c) now1 now2)); SetNewTodo []].

Definition toggleTodo (i : jsstr) : list Update := [SetTodos (toggle_update i)].
Definition deleteTodo (i : jsstr) : list Update := [SetTodos (delete_update i)].
Definition clearCompleted : list Update := [SetTodos clear_update].

(** The events of the rendered page; [now1] and [now2] are what the two
    [Date.now()] calls of [addTodo] return if it runs. *)
Inductive Event :=
  | EvChange (value : jsstr)
  | EvKeyDown (key : jsstr) (now1 now2 : Z)
  | EvClickAdd (now1 now2 : Z)
  | EvClickFilter (f : Filter)
  | EvClickToggle (i : jsstr)
  | EvClickDelete (i : jsstr)
  | EvClickClear.

Definition handle (c : Comp) (ev : Event) : list Update :=
  match ev with
  | EvChange v => [SetNewTodo v]
  | EvKeyDown key now1 now2 => if str_eqb key (js "Enter") then addTodo c now1 now2 else []
  | EvClickAdd now1 now2 => addTodo c now1 now2
  | EvClickFilter f => [SetFilter f]
  | EvClickToggle i => toggleTodo i
  | EvClickDelete i => deleteTodo i
  | EvClickClear => clearCompleted
  end.

(** Whether the control an event comes from is rendered and enabled. *)
Definition available (c : Comp) (ev : Event) : bool :=
  match ev with
  | EvClickAdd _ _ => truthy (trim (newTodo c))
  | EvClickToggle i | EvClickDelete i =>
      existsb (fun t => str_eqb (id t) i) (filteredTodos (filter c) (todos c))
  | EvClickClear =>
      negb (Nat.eqb (length (todos c)) 0) && negb (Nat.eqb (completedCount (todos c)) 0)
  | _ => true
  end.

(** The value of the filter as the page prints it. *)
Definition filter_name (f : Filter) : jsstr :=
  match f with All => js "all" | Active => js "active" | Completed => js "completed" end.

(** The empty-state paragraph (lines 109-113): shown when [filteredTodos]
    is empty, its text chosen by [filter === 'all'] alone. *)
Definition empty_text (f : Filter) : jsstr :=
  if decide (f = All) then js "No reminders yet"
  else js "No " ++ filter_name f ++ js " reminders".

Definition empty_message (c : Comp) : option jsstr :=
  if Nat.eqb (length (filteredTodos (filter c) (todos c))) 0 then Some (empty_text (filter c))
  else None.

(** One user event, handled and committed. *)
Definition step_fn (cs : Comp * S) (ev : Event) : Comp * S :=
  if available cs.1 ev then commit cs.1 cs.2 (handle cs.1 ev) else cs.

Definition run (cs : Comp * S) (evs : list Event) : Comp * S := fold_left step_fn evs cs.

(** ** Mount *)

Inductive LoadResult :=
  | LoadNothing             (* getItem gave null or the empty string *)
  | LoadThrow               (* JSON.parse threw a SyntaxError *)
  | LoadValue (v : jval).   (* setTodos(JSON.parse(saved)) was queued *)

(** The effect of lines 21-26. *)
Definition load_effect (s : S) : LoadResult :=
  match getItem s STORAGE_KEY with
  | Some saved =>
      if truthy saved then
        match JSON_parse saved with
        | Some v => LoadValue v
        | None => LoadThrow
        end
      else LoadNothing
  | None => LoadNothing
  end.

Definition queued (r : LoadResult) : list jval :=
  match r with LoadValue v => [v] | _ => [] end.

Inductive Mounted :=
  | MountOk (c : Comp) (s : S)
  | MountCrash (s : S)
  | MountUnmodelled (v : jval) (s : S).

(** The re-render after the mount effects: the last queued value becomes
    [todos]; a value that is not an array makes [todos.filter] throw; a
    list of saved records is rendered and saved again. *)
Definition settle (s : S) (pending : list jval) : Mounted :=
  match last pending with
  | None => MountOk initial_comp s
  | Some v =>
      match v with
      | JArr _ =>
          match decode_todos v with
          | Some l =>
              let c := {| todos := l; newTodo := []; filter := All |} in
              MountOk c (save_effect c s)
          | None => MountUnmodelled v s
          end
      | _ => MountCrash s
      end
  end.

(** Mount: the load effect, then the save effect of the first commit
    (with [todos = []]), then the re-render. *)
Definition mount (s0 : S) : Mounted :=
  match load_effect s0 with
  | LoadThrow => MountCrash s0
  | r => settle (save_effect initial_comp s0) (queued r)
  end.

(** Mount under StrictMode in development: the mount effects run, are
    cleaned up, and run again before the queued updates are rendered. *)
Definition mount_strict (s0 : S) : Mounted :=
  match load_effect s0 with
  | LoadThrow => MountCrash s0
  | r1 =>
      let s1 := save_effect initial_comp s0 in
      match load_effect s1 with
      | LoadThrow => MountCrash s1
      | r2 => settle (save_effect initial_comp s1) (queued r1 ++ queued r2)
      end
  end.

(** ** Steps and reachable states *)

Inductive step : Comp * S -> Event -> Comp * S -> Prop :=
  | step_event cs ev :
      available cs.1 ev = true -> step cs ev (commit cs.1 cs.2 (handle cs.1 ev)).

Inductive reachable : Comp * S -> Prop :=
  | reachable_mount s0 c s : mount s0 = MountOk c s -> reachable (c, s)
  | reachable_step cs ev cs' : reachable cs -> step cs ev cs' -> reachable cs'.
End Runtime.

(** ** The store mirrors the list *)

Section Theorems.
Context {S : Type} `{Storage S} `{!StorageLaws S}.

(** What the store holds under the key is the text of the list. *)
Definition mirrors (c : Comp) (s : S) : Prop :=
  getItem s STORAGE_KEY = Some (serialize (todos c)).

Lemma fold_apply_no_set_todos us c :
  existsb is_set_todos us = false -> todos (fold_left apply_update us c) = todos c.
Proof.
  revert c. induction us as [|u us IH]; intros c Hus; [done|].
  simpl in Hus. apply orb_false_iff in Hus as [Hu Hus].
  simpl. rewrite IH by done. by destruct u.
Qed.

Lemma commit_fst c s us : (commit c s us).1 = fold_left apply_update us c.
Proof. unfold commit. by destruct (existsb is_set_todos us). Qed.

Lemma save_effect_mirrors c s : mirrors c (save_effect c s).
Proof. apply getItem_setItem_eq. Qed.

Lemma commit_mirrors c s us :
  mirrors c s -> mirrors (commit c s us).1 (commit c s us).2.
Proof.
  unfold commit. destruct (existsb is_set_todos us) eqn:E; simpl.
  - intros _. apply save_effect_mirrors.
  - unfold mirrors. by rewrite fold_apply_no_set_todos.
Qed.

Lemma settle_mirrors s pending c s' :
  getItem s STORAGE_KEY = Some (serialize []) ->
  settle s pending = MountOk c s' -> mirrors c s'.
Proof.
  unfold settle. intros Hs.
  destruct (last pending) as [v|]; [|intros [= <- <-]; done].
  destruct v; try discriminate. destruct (decode_todos _); [|discriminate].
  intros [= <- <-]. apply save_effect_mirrors.
Qed.

Lemma mount_mirrors s0 c s : mount s0 = MountOk c s -> mirrors c s.
Proof.
  unfold mount. destruct (load_effect s0); try discriminate;
    apply settle_mirrors, (save_effect_mirrors initial_comp).
Qed.

Lemma mirrors_of_reachable cs : reachable cs -> mirrors cs.1 cs.2.
Proof.
  induction 1 as [s0 c s Hm | cs ev cs' _ IH Hstep].
  - by apply (mount_mirrors s0).
  - inversion Hstep; subst. by apply commit_mirrors.
Qed.

(** C1: The persistence invariant: in every state reachable from a mount, the
    store holds [JSON.stringify(todos)] under ["zos-todos"]. *)
Theorem reachable_mirrors c s :
  reachable (c, s) -> getItem s STORAGE_KEY = Some (serialize (todos c)).
Proof. apply (mirrors_of_reachable (c, s)). Qed.

(** ** Reload *)

Lemma serialize_truthy l : truthy (serialize l) = true.
Proof. unfold serialize, encode_todos. simpl. by destruct (map encode_todo l). Qed.

Lemma load_effect_mirrors c s :
  todos_wf (todos c) = true -> mirrors c s ->
  load_effect s = LoadValue (encode_todos (todos c)).
Proof.
  intros Hwf Hm. unfold load_effect. rewrite Hm, serialize_truthy.
  unfold serialize. rewrite stringify_roundtrip by (by apply encode_todos_canon). done.
Qed.

(** C3: Reloading the page in a state whose list is well formed mounts a
    component with the same list, in the same order. *)
Theorem reload_keeps_todos c s :
  reachable (c, s) -> todos_wf (todos c) = true ->
  exists s', mount s = MountOk {| todos := todos c; newTodo := []; filter := All |} s'.
Proof.
  intros Hr Hwf. apply mirrors_of_reachable in Hr. simpl in Hr.
  unfold mount. rewrite (load_effect_mirrors c s Hwf Hr).
  pose proof (decode_encode (todos c) Hwf) as D. unfold encode_todos in D |- *.
  unfold settle. cbn [queued last]. cbv beta iota. rewrite D. eexists. reflexivity.
Qed.

(** C22: The unchecked cast of line 24 is sound on what the component writes:
    in every reachable state whose records are well formed, the store holds
    a text that JSON.parse reads as an array with one value per record,
    each of the TypeScript type [Todo]. *)
Theorem stored_has_type c s :
  reachable (c, s) -> todos_wf (todos c) = true ->
  exists text vs, getItem s STORAGE_KEY = Some text /\ JSON_parse text = Some (JArr vs) /\
    length vs = length (todos c) /\ Forall (fun v => has_type_Todo v = true) vs.
Proof.
  intros Hr Hwf. apply mirrors_of_reachable in Hr.
  exists (serialize (todos c)), (map encode_todo (todos c)).
  split_and!; [exact Hr| |by rewrite length_map|].
  - apply stringify_roundtrip, encode_todos_canon, Hwf.
  - apply List.Forall_forall. intros v (t & <- & _)%in_map_iff. apply encode_todo_type.
Qed.

(** ** Adding a reminder *)

(** C7: A blank draft (empty or white space only): pressing Enter queues
    nothing, so neither the state nor the store changes. *)
Theorem addTodo_blank c s now1 now2 :
  forallb is_ws (newTodo c) = true ->
  commit c s (handle c (EvKeyDown (js "Enter") now1 now2)) = (c, s).
Proof.
  intros Hws. apply trim_nil_iff in Hws. unfold handle, addTodo.
  rewrite Hws. simpl. by destruct c.
Qed.

(** C6: A draft with text: Enter puts the record, with the trimmed text, at
    the front of the list, clears the draft and saves the new list. *)
Theorem addTodo_prepends c s now1 now2 :
  forallb is_ws (newTodo c) = false ->
  commit c s (handle c (EvKeyDown (js "Enter") now1 now2))
  = let c' := {| todos := new_todo (newTodo c) now1 now2 :: todos c;
                 newTodo := []; filter := filter c |} in
    (c', save_effect c' s).
Proof.
  intros Hws. unfold handle, addTodo.
  destruct (trim (newTodo c)) eqn:E.
  - apply trim_nil_iff in E. congruence.
  - simpl. reflexivity.
Qed.

(** ** Loading a damaged store *)

(** C12: Unlike the spec's "fail open to an empty list", a saved text that is
    not JSON makes JSON.parse throw inside the mount effect: the
    component crashes and no list is shown. *)
Theorem mount_malformed s0 saved :
  getItem s0 STORAGE_KEY = Some saved -> truthy saved = true -> JSON_parse saved = None ->
  mount s0 = MountCrash s0.
Proof. intros Hg Ht Hp. unfold mount, load_effect. by rewrite Hg, Ht, Hp. Qed.

(** C33: A saved text that is valid JSON but not an array (["null"],
    ["5"], an object) is set as [todos]; the save effect of the first
    commit has already replaced it by ["[]"], and the re-render then throws
    on [todos.filter]: the component crashes and the saved text is lost. *)
Theorem mount_non_array s0 saved v :
  getItem s0 STORAGE_KEY = Some saved -> truthy saved = true ->
  JSON_parse saved = Some v -> (forall l, v <> JArr l) ->
  mount s0 = MountCrash (save_effect initial_comp s0).
Proof.
  intros Hg Ht Hp Hv. unfold mount, load_effect. rewrite Hg, Ht, Hp.
  unfold settle. simpl. destruct v; try done. by destruct (Hv l).
Qed.

(** ** The empty-state message *)

(** C34: The empty-state text depends only on the filter, not on whether
    the list is empty: with no reminders at all and the "active" or
    "completed" filter selected, the page says "No active reminders" (or
    "No completed reminders"), not the spec's "no tasks at all" text. *)
Theorem empty_message_no_todos c :
  todos c = [] -> filter c <> All ->
  empty_message c = Some (js "No " ++ filter_name (filter c) ++ js " reminders").
Proof.
  intros Hn Hf. unfold empty_message, empty_text. rewrite Hn. simpl.
  by rewrite decide_False by done.
Qed.

(** ** StrictMode *)

(** C14: Under StrictMode the second run of the load effect reads the ["[]"]
    that the first save effect wrote, and its update is applied last: the
    saved list is replaced by the empty one. *)
Theorem mount_strict_erases s0 :
  load_effect s0 <> LoadThrow ->
  exists s, mount_strict s0 = MountOk initial_comp s /\
            getItem s STORAGE_KEY = Some (serialize []).
Proof.
  intros Hl. unfold mount_strict.
  assert (Hs1 : load_effect (save_effect initial_comp s0) = LoadValue (JArr [])).
  { unfold load_effect, save_effect. rewrite getItem_setItem_eq. reflexivity. }
  destruct (load_effect s0) eqn:E; [| done |]; rewrite Hs1; simpl;
    (eexists; split; [reflexivity|apply getItem_setItem_eq]).
Qed.

(** ** Two open tabs *)

(** C17: Two instances share the store and never reread it: when the second
    commits a change of its list, the store holds the second's list,
    whatever the first wrote before. *)
Theorem last_write_wins cA cB s usA usB :
  existsb is_set_todos usB = true ->
  let s1 := (commit cA s usA).2 in
  getItem (commit cB s1 usB).2 STORAGE_KEY = Some (serialize (todos (commit cB s1 usB).1)).
Proof. intros HB. simpl. unfold commit. rewrite HB. apply save_effect_mirrors. Qed.

(** ** Draft edits and filter changes do not write *)

(** C18: A commit that queues no [setTodos] leaves the store as it was: typing
    in the input and choosing a filter never write to localStorage. *)
Theorem commit_no_write c s us :
  existsb is_set_todos us = false -> (commit c s us).2 = s.
Proof. intros Hus. unfold commit. by rewrite Hus. Qed.

(** ** One event at a time *)

Lemma step_change c s v :
  step_fn (c, s) (EvChange v) = ({| todos := todos c; newTodo := v; filter := filter c |}, s).
Proof. done. Qed.

Lemma step_add c s n1 n2 :
  truthy (trim (newTodo c)) = true ->
  step_fn (c, s) (EvClickAdd n1 n2)
  = ({| todos := new_todo (newTodo c) n1 n2 :: todos c; newTodo := []; filter := filter c |},
     save_effect {| todos := new_todo (newTodo c) n1 n2 :: todos c; newTodo := [];
                    filter := filter c |} s).
Proof.
  intros Ht. unfold step_fn. cbn [fst snd available]. rewrite Ht. unfold handle, addTodo.
  by rewrite Ht.
Qed.

Lemma step_toggle c s i :
  existsb (fun t => str_eqb (id t) i) (filteredTodos (filter c) (todos c)) = true ->
  step_fn (c, s) (EvClickToggle i)
  = ({| todos := toggle_update i (todos c); newTodo := newTodo c; filter := filter c |},
     save_effect {| todos := toggle_update i (todos c); newTodo := newTodo c;
                    filter := filter c |} s).
Proof. intros Ht. unfold step_fn. cbn [fst snd available]. by rewrite Ht. Qed.

(** C26: Two reminders added within the same millisecond get the same
    id, and one click on the toggle button of the newer one completes
    both: from any state whose filter shows active reminders, adding two
    non-blank drafts while [Date.now()] reads [now] for the id gives two
    records with the id [String(now)], and toggling it flips both of them
    (and any older record with that id).  Ids from [Date.now()] are not
    unique (spec section 9). *)
Theorem same_millisecond_ids c s d1 d2 now n1 n2 :
  truthy (trim d1) = true -> truthy (trim d2) = true -> filter c <> Completed ->
  todos (run (c, s) [EvChange d1; EvClickAdd now n1; EvChange d2; EvClickAdd now n2;
                     EvClickToggle (Number_toString now)]).1
  = {| id := Number_toString now; text := trim d2; completed := true; createdAt := n2 |} ::
    {| id := Number_toString now; text := trim d1; completed := true; createdAt := n1 |} ::
    toggle_update (Number_toString now) (todos c).
Proof.
  intros H1 H2 Hf. unfold run. cbn [fold_left].
  rewrite step_change, step_add by exact H1. rewrite step_change, step_add by exact H2.
  rewrite step_toggle.
  - unfold toggle_update, toggle_one. cbn [fst todos newTodo filter new_todo id map].
    by rewrite str_eqb_refl.
  - cbn [filter todos newTodo new_todo]. destruct (filter c); [| | done]; cbn; by rewrite str_eqb_refl.
Qed.
End Theorems.

Definition empty_store : gmap jsstr jsstr := ∅.

(** ** Witnesses *)

Definition saved_store : gmap jsstr jsstr :=
  <[STORAGE_KEY := serialize [milk; rent]]> empty_store.

Definition mounted_saved : Comp * gmap jsstr jsstr :=
  Eval vm_compute in
  match mount saved_store with MountOk c s => (c, s) | _ => (initial_comp, empty_store) end.

Lemma reachable_mirrors_witness :
  reachable mounted_saved /\
  getItem mounted_saved.2 STORAGE_KEY = Some (serialize (todos mounted_saved.1)).
Proof.
  assert (H : reachable mounted_saved)
    by (unfold mounted_saved; apply reachable_mount with saved_store; vm_compute; reflexivity).
  split; [exact H|]. apply reachable_mirrors. exact H.
Defined.

Lemma reload_keeps_todos_witness :
  reachable mounted_saved /\ todos_wf (todos mounted_saved.1) = true /\
  exists s', mount mounted_saved.2
             = MountOk {| todos := todos mounted_saved.1; newTodo := []; filter := All |} s'.
Proof.
  assert (H : reachable mounted_saved)
    by (unfold mounted_saved; apply reachable_mount with saved_store; vm_compute; reflexivity).
  split_and!; [exact H|vm_compute; reflexivity|].
  apply reload_keeps_todos; [exact H|vm_compute; reflexivity].
Defined.

Lemma stored_has_type_witness :
  reachable mounted_saved /\ todos_wf (todos mounted_saved.1) = true /\
  exists text vs, getItem mounted_saved.2 STORAGE_KEY = Some text /\
    JSON_parse text = Some (JArr vs) /\ length vs = length (todos mounted_saved.1) /\
    Forall (fun v => has_type_Todo v = true) vs.
Proof.
  assert (H : reachable mounted_saved)
    by (unfold mounted_saved; apply reachable_mount with saved_store; vm_compute; reflexivity).
  assert (Hw : todos_wf (todos mounted_saved.1) = true) by (vm_compute; reflexivity).
  split_and!; [exact H|exact Hw|]. destruct mounted_saved as [c s] eqn:E.
  by apply stored_has_type.
Defined.

Definition null_store : gmap jsstr jsstr := <[STORAGE_KEY := js "null"]> empty_store.

Lemma mount_non_array_witness :
  getItem null_store STORAGE_KEY = Some (js "null") /\ truthy (js "null") = true /\
  JSON_parse (js "null") = Some JNull /\ (forall l, JNull <> JArr l) /\
  mount null_store = MountCrash (save_effect initial_comp null_store).
Proof.
  assert (Hv : forall l, JNull <> JArr l) by discriminate.
  split_and!; [reflexivity|reflexivity|vm_compute; reflexivity|exact Hv|].
  apply (mount_non_array _ (js "null") JNull); [reflexivity|reflexivity|vm_compute; reflexivity|exact Hv].
Defined.

Lemma empty_message_no_todos_witness :
  todos (mkComp [] [] Active) = [] /\ filter (mkComp [] [] Active) <> All /\
  empty_message (mkComp [] [] Active)
  = Some (js "No " ++ filter_name (filter (mkComp [] [] Active)) ++ js " reminders").
Proof.
  assert (Hf : filter (mkComp [] [] Active) <> All) by discriminate.
  split_and!; [reflexivity|exact Hf|]. apply empty_message_no_todos; [reflexivity|exact Hf].
Defined.

Definition draft (s : jsstr) : Comp := {| todos := [rent]; newTodo := s; filter := All |}.

Lemma addTodo_blank_witness :
  forallb is_ws (newTodo (draft (js "   "))) = true /\
  commit (draft (js "   ")) empty_store (handle (draft (js "   ")) (EvKeyDown (js "Enter") 5 6))
  = (draft (js "   "), empty_store).
Proof. split; [reflexivity|]. apply addTodo_blank. reflexivity. Defined.

Lemma addTodo_prepends_witness :
  forallb is_ws (newTodo (draft (js "  buy milk  "))) = false /\
  commit (draft (js "  buy milk  ")) empty_store
    (handle (draft (js "  buy milk  ")) (EvKeyDown (js "Enter") 5 6))
  = let c' := {| todos := new_todo (js "  buy milk  ") 5 6 :: [rent];
                 newTodo := []; filter := All |} in
    (c', save_effect c' empty_store).
Proof. split; [reflexivity|]. apply addTodo_prepends. reflexivity. Defined.

Definition damaged_store : gmap jsstr jsstr :=
  <[STORAGE_KEY := js "[{bad"]> empty_store.

Lemma mount_malformed_witness :
  getItem damaged_store STORAGE_KEY = Some (js "[{bad") /\
  truthy (js "[{bad") = true /\ JSON_parse (js "[{bad") = None /\
  mount damaged_store = MountCrash damaged_store.
Proof.
  split_and!; [reflexivity|reflexivity|vm_compute; reflexivity|].
  apply (mount_malformed _ (js "[{bad")); [reflexivity|reflexivity|vm_compute; reflexivity].
Defined.

Lemma mount_strict_erases_witness :
  load_effect saved_store <> LoadThrow /\
  exists s, mount_strict saved_store = MountOk initial_comp s /\
            getItem s STORAGE_KEY = Some (serialize []).
Proof.
  assert (H : load_effect saved_store <> LoadThrow) by (vm_compute; discriminate).
  split; [exact H|]. apply mount_strict_erases. exact H.
Defined.

Lemma last_write_wins_witness :
  existsb is_set_todos (toggleTodo (js "1700000000000")) = true /\
  let s1 := (commit (draft []) saved_store (addTodo (draft (js "x")) 9 9)).2 in
  getItem (commit (draft []) s1 (toggleTodo (js "1700000000000"))).2 STORAGE_KEY
  = Some (serialize (todos (commit (draft []) s1 (toggleTodo (js "1700000000000"))).1)).
Proof. split; [reflexivity|]. apply last_write_wins. reflexivity. Defined.

Lemma commit_no_write_witness :
  existsb is_set_todos [SetFilter Active; SetNewTodo (js "a")] = false /\
  (commit (draft []) saved_store [SetFilter Active; SetNewTodo (js "a")]).2 = saved_store.
Proof. split; [reflexivity|]. apply commit_no_write. reflexivity. Defined.

Lemma same_millisecond_ids_witness :
  truthy (trim (js "a")) = true /\ truthy (trim (js "b")) = true /\
  filter initial_comp <> Completed /\
  todos (run (initial_comp, empty_store)
           [EvChange (js "a"); EvClickAdd 5 5; EvChange (js "b"); EvClickAdd 5 6;
            EvClickToggle (Number_toString 5)]).1
  = {| id := Number_toString 5; text := trim (js "b"); completed := true; createdAt := 6 |} ::
    {| id := Number_toString 5; text := trim (js "a"); completed := true; createdAt := 5 |} ::
    toggle_update (Number_toString 5) (todos initial_comp).
Proof.
  assert (Hf : filter initial_comp <> Completed) by discriminate.
  split_and!; [reflexivity | reflexivity | exact Hf |].
  apply same_millisecond_ids; [reflexivity | reflexivity | exact Hf].
Defined.

End App.
