(* ===== verification/View.v ===== *)
(** * The rendered page

    The JSX tree [TodoApp] returns (src/src/index.tsx lines 69-163), as the
    data a user sees and the controls a user can press: the three filter
    buttons with the current one highlighted, the input with the draft and
    the Add button (disabled on a blank draft), either the empty-state
    paragraph or one row per shown record (React key, the toggle button
    filled when completed, the text struck through when completed, the
    delete button), and the footer with the count of active records and the
    Clear completed button.  Class names, icons and layout are left out:
    they do not depend on the state except through the fields kept here.

    Theorem: the footer is shown exactly when the list is not empty and
    prints the active count in plain decimal digits ([render_footer]). *)

From Stdlib Require Import String.
From stdpp Require Import base list gmap.
From Stdlib Require Import ZArith Lia.
From S2P Require Import Prelude JsString JsNumber Todo Storage App.
Import JsString JsNumber Todo App.

Module View.
Open Scope Z_scope.

(** ** The page *)

(** A filter button of lines 74-84: the filter it sets, its label, and
    whether it has the highlighted class ([filter === f]). *)
Record FilterButton := mkFilterButton {
  fb_filter : Filter;
  fb_label : jsstr;
  fb_selected : bool
}.

(** A row of lines 117-144: its React key, whether the toggle button is
    filled (and the text struck through), and the text. *)
Record Row := mkRow {
  row_key : jsstr;
  row_checked : bool;
  row_text : jsstr
}.

(** The list area of lines 108-148. *)
Inductive Body :=
  | EmptyState (msg : jsstr)
  | Rows (rows : list Row).

(** The footer of lines 150-162. *)
Record Footer := mkFooter {
  remaining_text : jsstr;
  clear_button : bool
}.

Record Page := mkPage {
  filter_buttons : list FilterButton;
  input_value : jsstr;
  add_disabled : bool;
  body : Body;
  footer : option Footer
}.

(** [(['all', 'active', 'completed'] as const)] *)
Definition filters : list Filter := [All; Active; Completed].

Definition render_filter_button (current f : Filter) : FilterButton :=
  {| fb_filter := f; fb_label := filter_name f; fb_selected := bool_decide (current = f) |}.

Definition render_row (t : Todo) : Row :=
  {| row_key := id t; row_checked := completed t; row_text := text t |}.

(** [{activeCount} remaining]: React prints the number with
    Number::toString. *)
Definition footer_of (n active done : nat) : option Footer :=
  if Nat.ltb 0 n then
    Some {| remaining_text := Number_toString (Z.of_nat active) ++ js " remaining";
            clear_button := Nat.ltb 0 done |}
  else None.

Definition render_footer_of (todos : list Todo) : option Footer :=
  footer_of (length todos) (activeCount todos) (completedCount todos).

Definition render (c : Comp) : Page :=
  {| filter_buttons := map (render_filter_button (filter c)) filters;
     input_value := newTodo c;
     add_disabled := negb (truthy (trim (newTodo c)));
     body := match empty_message c with
             | Some msg => EmptyState msg
             | None => Rows (map render_row (filteredTodos (filter c) (todos c)))
             end;
     footer := render_footer_of (todos c) |}.

(** C35: The footer is shown exactly when the list is not empty; it prints
    the number of active records in plain decimal digits followed by
    " remaining", and has the Clear completed button exactly when some
    record is completed.  The bound on the list length keeps the count
    below 10^21, where Number::toString prints plain digits. *)
Theorem render_footer c :
  Z.of_nat (length (todos c)) < 10 ^ 21 ->
  footer (render c) =
    match todos c with
    | [] => None
    | _ => Some {| remaining_text :=
                     digits_N (N.of_nat (activeCount (todos c))) ++ js " remaining";
                   clear_button := negb (Nat.eqb (completedCount (todos c)) 0) |}
    end.
Proof.
  intros Hn. cbn [render footer]. unfold render_footer_of, footer_of.
  assert (activeCount (todos c) <= length (todos c))%nat by apply filter_length_le.
  destruct (todos c) as [|t l]; [done|]. simpl Nat.ltb. cbv iota.
  rewrite Number_toString_nonneg by lia. rewrite <- nat_N_Z, N2Z.id.
  by destruct (completedCount (t :: l)).
Qed.

(** ** Witnesses *)

Lemma render_footer_witness :
  Z.of_nat (length (todos (draft []))) < 10 ^ 21 /\
  footer (render (draft [])) = Some {| remaining_text := js "0 remaining";
                                       clear_button := true |}.
Proof.
  split; [vm_compute; reflexivity|].
  rewrite (render_footer (draft [])) by (vm_compute; reflexivity). vm_compute. reflexivity.
Defined.

End View.
