(* ===== verification/Liveness.v ===== *)
(** * What a user can always do

    From any state of the component a user can empty the list: choose the
    All filter, then press the delete button of the first row until no row
    is left.  A user can also add any reminder whose text is not blank
    (type it, then press Add), and toggle any record of the list (choose
    All, then press the record's toggle button).  Both are stated with [star] of one user
    event ([user_step]), where every event is one that [App.available]
    admits, that is one whose control the page of lines 69-163 renders
    and enables.  The two theorems hold in every state, reachable or not. *)

From Stdlib Require Import String.
From stdpp Require Import base list gmap.
From Stdlib Require Import ZArith Lia.
From S2P Require Import Prelude JsString JsNumber Todo Storage App.
Import JsString Todo App.

Module Liveness.

Section Liveness.
Context {S : Type} `{Storage S}.

(** One user event that the page offers, handled and committed. *)
Definition user_step (cs cs' : Comp * S) : Prop := exists ev, step cs ev cs'.

Lemma user_step_of c s ev :
  available c ev = true -> user_step (c, s) (commit c s (handle c ev)).
Proof. intros Hav. exists ev. by apply (step_event (c, s)). Qed.

(** Deleting the id of the first record removes that record at least. *)
Lemma delete_update_head_length t l :
  (length (delete_update (id t) (t :: l)) <= length l)%nat.
Proof. unfold delete_update. simpl. rewrite str_eqb_refl. apply filter_length_le. Qed.

Lemma empty_from_all n c s :
  (length (todos c) <= n)%nat -> filter c = All ->
  exists cs', star user_step (c, s) cs' /\ todos cs'.1 = [].
Proof.
  revert c s. induction n as [|n IH]; intros c s Hn Hf;
    (destruct (todos c) as [|t l] eqn:E; [exists (c, s); split; [constructor|done]|]);
    simpl in Hn; [lia|].
  assert (Hav : available c (EvClickDelete (id t)) = true).
  { simpl. rewrite Hf, filteredTodos_all, E. simpl. by rewrite str_eqb_refl. }
  pose proof (delete_update_head_length t l).
  destruct (commit c s (handle c (EvClickDelete (id t)))) as [c' s'] eqn:Ec.
  pose proof (f_equal fst Ec) as E1. rewrite commit_fst in E1. simpl in E1.
  destruct (IH c' s') as (cs' & Hs & Ht); [rewrite <- E1; simpl; rewrite E; lia|by rewrite <- E1|].
  exists cs'. split; [|done].
  eapply star_step; [|exact Hs]. rewrite <- Ec. by apply user_step_of.
Qed.

(** C19: From every state a user can empty the list, through events the page
    offers. *)
Theorem can_empty cs : exists cs', star user_step cs cs' /\ todos cs'.1 = [].
Proof.
  destruct cs as [c s].
  destruct (commit c s (handle c (EvClickFilter All))) as [c1 s1] eqn:Ec.
  pose proof (f_equal fst Ec) as E1. rewrite commit_fst in E1. simpl in E1.
  destruct (empty_from_all (length (todos c)) c1 s1) as (cs' & Hs & Ht);
    [rewrite <- E1; simpl; lia|by rewrite <- E1|].
  exists cs'. split; [|done].
  eapply star_step; [|exact Hs]. rewrite <- Ec. by apply user_step_of.
Qed.

(** C20: From every state a user can add a reminder with any text that is not
    blank: it becomes the first record, and the input is emptied. *)
Theorem can_add c s txt now1 now2 :
  truthy (trim txt) = true ->
  exists cs', star user_step (c, s) cs' /\
    todos cs'.1 = new_todo txt now1 now2 :: todos c /\ newTodo cs'.1 = [].
Proof.
  intros Ht.
  destruct (commit c s (handle c (EvChange txt))) as [c1 s1] eqn:E1.
  assert (Hc1 : c1 = {| todos := todos c; newTodo := txt; filter := filter c |}).
  { apply (f_equal fst) in E1. rewrite commit_fst in E1. simpl in E1. by rewrite <- E1. }
  assert (Hav : available c1 (EvClickAdd now1 now2) = true) by (by rewrite Hc1).
  exists (commit c1 s1 (handle c1 (EvClickAdd now1 now2))). split_and!.
  - apply (star_step _ _ (c1, s1)); [rewrite <- E1; by apply user_step_of|].
    apply star_one. by apply user_step_of.
  - rewrite commit_fst, Hc1. simpl. unfold addTodo. simpl. by rewrite Ht.
  - rewrite commit_fst, Hc1. simpl. unfold addTodo. simpl. by rewrite Ht.
Qed.
(** C21: From every state a user can toggle any record of the list:
    choose the All filter, then press that record's toggle button.  The
    list becomes [toggle_update (id t)] of the list, which flips
    [completed] on exactly the records with that id; the draft is kept. *)
Theorem can_toggle c s t :
  In t (todos c) ->
  exists cs', star user_step (c, s) cs' /\
    cs'.1 = {| todos := toggle_update (id t) (todos c); newTodo := newTodo c; filter := All |}.
Proof.
  intros Ht.
  set (c1 := {| todos := todos c; newTodo := newTodo c; filter := All |}).
  assert (Hav : available c1 (EvClickToggle (id t)) = true).
  { cbn [available c1 filter todos]. rewrite filteredTodos_all. apply existsb_exists.
    exists t. split; [done|]. apply str_eqb_refl. }
  exists (commit c1 s (handle c1 (EvClickToggle (id t)))). split; [|by rewrite commit_fst].
  eapply star_step; [|apply star_one, user_step_of, Hav].
  replace (c1, s) with (commit c s (handle c (EvClickFilter All))) by done.
  by apply user_step_of.
Qed.
End Liveness.

(** ** Witnesses *)

Lemma can_add_witness :
  truthy (trim (js "  milk ")) = true /\
  exists cs', star user_step (initial_comp, empty_store) cs' /\
    todos cs'.1 = new_todo (js "  milk ") 7 8 :: todos initial_comp /\ newTodo cs'.1 = [].
Proof.
  split; [reflexivity|]. apply can_add. reflexivity.
Defined.

Lemma can_toggle_witness :
  In rent (todos (draft [])) /\
  exists cs', star user_step (draft [], empty_store) cs' /\
    cs'.1 = {| todos := toggle_update (id rent) (todos (draft [])); newTodo := [];
               filter := All |}.
Proof.
  assert (H : In rent (todos (draft []))) by (left; reflexivity).
  split; [exact H|]. apply (can_toggle (draft []) empty_store rent H).
Defined.

End Liveness.
