(* ===== verification/Untyped.v ===== *)
(** * The component on the values JSON.parse really gives

    Line 24 hands [JSON.parse(saved)] to [setTodos] without any check: the
    list may hold any JSON value, and a saved record may lack a field or
    carry one of another type.  [App.v] follows the component on lists of
    well-shaped records and stops with [MountUnmodelled] at any other
    saved array.  This file follows it on every array: the state holds the
    JavaScript values themselves, and every expression of the source that
    reads them is evaluated with JavaScript's rules:
    - [todo.id], [todo.text], [todo.completed] read a property of an
      object, give [undefined] on a string, number, boolean or array, and
      throw a TypeError on [null] ([get_field]);
    - [!x], [x ? a : b] and [x && y] use ToBoolean ([truthy_jsv]);
    - [todo.id === id] is strict equality ([strict_eq]); an id that is
      an object or an array is compared by identity, and since JSON.parse
      allocates every object anew and no updater copies an id into
      another record, the identity of such an id is the position of its
      record in the list ([idref], [id_eq]);
    - [{...todo, completed: !todo.completed}] copies the own enumerable
      properties of an object, the indices of a string or an array, and
      nothing of a number or boolean, then sets [completed] ([spread_set]);
    - objects have the property order of ECMA-262 OrdinaryOwnPropertyKeys:
      integer-index keys first in ascending order, then the other keys in
      creation order, a later member of the same key overwriting the value
      ([js_object], [js_of_json]);
    - [key={todo.id}]: React keeps no key for [undefined] and otherwise
      takes [String(todo.id)]; an object has no callable own [valueOf] or
      [toString] (a member of that name is data), so the conversion throws
      when the object has its own [toString] member and otherwise gives
      "[object Object]", and an array gives its elements joined with
      commas ([to_string], [react_key]);
    - React renders a string or a number as text, [null], [undefined] and
      booleans as nothing, an array child by child, and throws on an object
      child ([render_child]); so [{todo.completed && <svg/>}] shows "0" for
      a [completed] of [0].

    Numbers are exact decimals, as in the rest of the development.  A
    render that throws is [None]; an exception unmounts the component
    ([LCrash]).  Two rows may get the same key (two object ids, or an
    array id and the string of its elements): React then warns, and this
    model shows both rows.

    Theorems: on a list of records this model and [App.v] agree on every
    run of events ([lrun_lift]) and on a reload ([lmount_reload]).  A
    saved array holding an element whose [todo.id] cannot be read or
    turned into a key ([null], or an id object with its own [toString])
    crashes the mount after [[]] was written ([lmount_row_throws]).  A
    record with [completed: 0] shows "0" in its toggle button
    ([lmount_zero_mark]); one whose [completed] is a non-empty string, even
    "false", counts as completed ([lmount_string_completed]).  The records without an [id] are all toggled by
    one click ([lmissing_ids_toggle_together]), while two records with
    equal object ids toggle apart ([lobject_ids_toggle_apart]). *)

From Stdlib Require Import String.
From stdpp Require Import base list gmap.
From Stdlib Require Import ZArith Lia.
From S2P Require Import Prelude JsString JsNumber Json Todo Storage App View.
Import JsString JsNumber Json Todo App View.

Module Untyped.
Open Scope Z_scope.

(** ** JavaScript values *)

(** [undefined], or a value that JSON.parse builds. *)
Inductive jsv :=
  | Undef
  | Val (v : jval).

(** ToBoolean. *)
Definition truthy_jsv (x : jsv) : bool :=
  match x with
  | Undef | Val JNull => false
  | Val (JBool b) => b
  | Val (JNum d) => negb (N.eqb (dmant d) 0)
  | Val (JStr s) => truthy s
  | Val (JArr _) | Val (JObj _) => true
  end.

(** ** Objects *)

(** The integer index a property key denotes: the canonical decimal string
    of a number below 2^32 - 1. *)
Definition array_index (k : jsstr) : option N :=
  match k with
  | [] => None
  | [48] => Some 0%N
  | c :: _ =>
      if (c =? 48) || negb (forallb is_digit k) then None
      else let n := digits_value k in
           if (n <? 4294967295)%N then Some n else None
  end.

(** CreateDataProperty: overwrite the value of an existing key in place,
    or add the key last. *)
Fixpoint set_prop (o : list (jsstr * jval)) (k : jsstr) (v : jval) : list (jsstr * jval) :=
  match o with
  | [] => [(k, v)]
  | (k', w) :: o' => if bool_decide (k' = k) then (k', v) :: o' else (k', w) :: set_prop o' k v
  end.

Fixpoint insert_index (n : N) (kv : jsstr * jval) (l : list (N * (jsstr * jval)))
    : list (N * (jsstr * jval)) :=
  match l with
  | [] => [(n, kv)]
  | (m, kv') :: l' => if (n <? m)%N then (n, kv) :: l else (m, kv') :: insert_index n kv l'
  end.

(** OrdinaryOwnPropertyKeys: integer indices ascending, then the other keys
    in creation order. *)
Definition own_order (o : list (jsstr * jval)) : list (jsstr * jval) :=
  let idx := fold_right (fun kv acc => match array_index kv.1 with
                                       | Some n => insert_index n kv acc
                                       | None => acc end) [] o in
  map snd idx ++ List.filter (fun kv => match array_index kv.1 with
                                        | Some _ => false | None => true end) o.

(** The object JSON.parse builds from the members of an object literal. *)
Definition js_object (kvs : list (jsstr * jval)) : list (jsstr * jval) :=
  own_order (fold_left (fun o kv => set_prop o kv.1 kv.2) kvs []).

(** The value JSON.parse returns, as a JavaScript value: every object
    rebuilt with [js_object]. *)
Fixpoint js_of_json (v : jval) : jval :=
  match v with
  | JArr l => JArr (map js_of_json l)
  | JObj kvs => JObj (js_object (map (fun kv => (kv.1, js_of_json kv.2)) kvs))
  | _ => v
  end.

(** ** Reading the fields of a record *)

Inductive field := FId | FText | FCompleted.

Definition field_name (f : field) : jsstr :=
  match f with FId => js "id" | FText => js "text" | FCompleted => js "completed" end.

(** [todo.f]; [None] is the TypeError of reading a property of [null]. *)
Definition get_field (v : jval) (f : field) : option jsv :=
  match v with
  | JNull => None
  | JObj kvs => Some (match obj_get kvs (field_name f) with Some w => Val w | None => Undef end)
  | _ => Some Undef
  end.

(** ** Strict equality with a primitive *)

(** The primitive values: what a rendered row's [todo.id] is, when the page
    is modelled. *)
Inductive prim :=
  | PUndef
  | PNull
  | PBool (b : bool)
  | PNum (d : decimal)
  | PStr (s : jsstr).

Definition prim_of (x : jsv) : option prim :=
  match x with
  | Undef => Some PUndef
  | Val JNull => Some PNull
  | Val (JBool b) => Some (PBool b)
  | Val (JNum d) => Some (PNum d)
  | Val (JStr s) => Some (PStr s)
  | Val (JArr _) | Val (JObj _) => None
  end.

(** Equality of the numbers two decimals denote; [0] and [-0] are equal. *)
Definition num_eqb (d1 d2 : decimal) : bool :=
  let e := Z.min (dexp d1) (dexp d2) in
  let m1 := Z.of_N (dmant d1) * 10 ^ (dexp d1 - e) in
  let m2 := Z.of_N (dmant d2) * 10 ^ (dexp d2 - e) in
  (m1 =? 0) && (m2 =? 0) || (Bool.eqb (dneg d1) (dneg d2) && (m1 =? m2)).

(** [x === p]: equal types and equal values; an object or an array is
    never equal to a primitive. *)
Definition strict_eq (x : jsv) (p : prim) : bool :=
  match x, p with
  | Undef, PUndef | Val JNull, PNull => true
  | Val (JBool b), PBool b' => Bool.eqb b b'
  | Val (JNum d), PNum d' => num_eqb d d'
  | Val (JStr s), PStr s' => str_eqb s s'
  | _, _ => false
  end.

(** What the buttons of a row pass for [todo.id]: a primitive, or an
    object or an array, which [===] compares by identity.  JSON.parse
    allocates every object anew, and no updater puts an id into another
    record (object spread keeps the reference in the one record it
    replaces), so the id object of the record at position [k] is the id
    of that record alone: [IObj k]. *)
Inductive idref :=
  | IPrim (p : prim)
  | IObj (k : nat).

Definition id_ref (k : nat) (x : jsv) : idref :=
  match prim_of x with Some p => IPrim p | None => IObj k end.

(** [todo.id === id] for the record at position [k]. *)
Definition id_eq (k : nat) (x : jsv) (i : idref) : bool :=
  match i with
  | IPrim p => strict_eq x p
  | IObj k' => Nat.eqb k k'
  end.

(** ** Object spread *)

(** The own enumerable properties of a value, in order, as spread copies
    them: an object's properties, the indices of an array or a string,
    none for the other primitives. *)
Definition own_props (v : jval) : list (jsstr * jval) :=
  match v with
  | JObj kvs => kvs
  | JArr l => imap (fun i w => (Number_toString (Z.of_nat i), w)) l
  | JStr s => imap (fun i c => (Number_toString (Z.of_nat i), JStr [c])) s
  | _ => []
  end.

(** [{...v, k: w}] *)
Definition spread_set (v : jval) (k : jsstr) (w : jval) : jval :=
  JObj (own_order (set_prop (own_props v) k w)).

(** ** Rendering a value as a React child *)

(** The text React shows for a child value: a string or a number as its
    text, [null] and booleans as nothing, an array child by child; [None]:
    an object child throws ("Objects are not valid as a React child"). *)
Fixpoint render_child (v : jval) : option (list jsstr) :=
  match v with
  | JNull | JBool _ => Some []
  | JNum d => Some [number_toString d]
  | JStr s => Some [s]
  | JArr l =>
      (fix go (l : list jval) : option (list jsstr) :=
         match l with
         | [] => Some []
         | w :: l' =>
             match render_child w, go l' with
             | Some t, Some r => Some (t ++ r)
             | _, _ => None
             end
         end) l
  | JObj _ => None
  end.

Definition render_child_jsv (x : jsv) : option (list jsstr) :=
  match x with Undef => Some [] | Val v => render_child v end.

(** ** The React key of a row *)

Fixpoint join_comma (ts : list jsstr) : jsstr :=
  match ts with
  | [] => []
  | [t] => t
  | t :: ts' => t ++ js "," ++ join_comma ts'
  end.

(** ToString of a value JSON.parse builds.  An object goes through
    OrdinaryToPrimitive: an own member named [valueOf] or [toString] is
    data, not a function, and is skipped, and the inherited
    [Object.prototype.valueOf] gives the object back, so an object with an
    own [toString] throws a TypeError ([None]) and any other is
    "[object Object]".  An array is [join(',')] of its elements, [null]
    giving the empty string. *)
Fixpoint to_string (v : jval) : option jsstr :=
  match v with
  | JNull => Some (js "null")
  | JBool b => Some (if b then js "true" else js "false")
  | JNum d => Some (number_toString d)
  | JStr s => Some s
  | JArr l =>
      join_comma <$>
      (fix go (l : list jval) : option (list jsstr) :=
         match l with
         | [] => Some []
         | w :: l' =>
             match (match w with JNull => Some [] | _ => to_string w end), go l' with
             | Some t, Some r => Some (t :: r)
             | _, _ => None
             end
         end) l
  | JObj kvs =>
      match obj_get kvs (js "toString") with
      | Some _ => None
      | None => Some (js "[object Object]")
      end
  end.

(** [key={todo.id}]: React keeps no key for [undefined] and otherwise
    takes [String(key)] (the ['' + key] of its JSX runtime). *)
Definition react_key (x : jsv) : option (option jsstr) :=
  match x with
  | Undef => Some None
  | Val v => Some <$> to_string v
  end.

(** What the toggle button holds, [{todo.completed && (<svg .../>)}]: the
    check mark when [completed] is truthy, otherwise the falsy value itself
    rendered as a child. *)
Inductive mark :=
  | Checkmark
  | MarkText (t : list jsstr).

Definition render_mark (c : jsv) : option mark :=
  if truthy_jsv c then Some Checkmark else MarkText <$> render_child_jsv c.

(** ** The state and the updaters *)

(** The three cells of React state; [ltodos] holds the values themselves. *)
Record LComp := mkLComp {
  ltodos : list jval;
  lnewTodo : jsstr;
  lfilter : Filter
}.

Definition initial_lcomp : LComp := {| ltodos := []; lnewTodo := []; lfilter := All |}.

(** [prev => [todo, ...prev]]: the record literal of lines 35-40 is the
    object [encode_todo todo]. *)
Definition ladd_update (todo : Todo) (prev : list jval) : option (list jval) :=
  Some (encode_todo todo :: prev).

(** [todo => todo.id === id ? {...todo, completed: !todo.completed} : todo] *)
Definition ltoggle_one (k : nat) (i : idref) (todo : jval) : option jval :=
  match get_field todo FId with
  | None => None
  | Some x =>
      if id_eq k x i then
        match get_field todo FCompleted with
        | Some c => Some (spread_set todo (js "completed") (JBool (negb (truthy_jsv c))))
        | None => None
        end
      else Some todo
  end.

Definition ltoggle_update (i : idref) (prev : list jval) : option (list jval) :=
  imap_opt (fun k => ltoggle_one k i) prev.

(** [prev.filter(todo => todo.id !== id)] *)
Definition ldelete_update (i : idref) (prev : list jval) : option (list jval) :=
  ifilter_opt (fun k todo => (fun x => negb (id_eq k x i)) <$> get_field todo FId) prev.

Definition is_active (todo : jval) : option bool :=
  (fun c => negb (truthy_jsv c)) <$> get_field todo FCompleted.

Definition is_completed (todo : jval) : option bool :=
  truthy_jsv <$> get_field todo FCompleted.

(** [prev.filter(todo => !todo.completed)] *)
Definition lclear_update (prev : list jval) : option (list jval) :=
  filter_opt is_active prev.

(** ** The rendered page *)

(** Lines 60-64. *)
Definition lfilter_pred (f : Filter) (todo : jval) : option bool :=
  match f with
  | Active => is_active todo
  | Completed => is_completed todo
  | All => Some true
  end.

Definition lfilteredTodos (f : Filter) (todos : list jval) : option (list jval) :=
  filter_opt (lfilter_pred f) todos.

(** Lines 66-67. *)
Definition lactiveCount (todos : list jval) : option nat := length <$> filter_opt is_active todos.
Definition lcompletedCount (todos : list jval) : option nat :=
  length <$> filter_opt is_completed todos.

(** A row: its React key, the id its buttons pass to the handlers, whether
    the toggle is filled and the text struck through, the toggle's
    content, the text. *)
Record LRow := mkLRow {
  lrow_key : option jsstr;
  lrow_id : idref;
  lrow_checked : bool;
  lrow_mark : mark;
  lrow_text : list jsstr
}.

Inductive LBody :=
  | LEmptyState (msg : jsstr)
  | LRows (rows : list LRow).

Record LPage := mkLPage {
  lfilter_buttons : list FilterButton;
  linput_value : jsstr;
  ladd_disabled : bool;
  lbody : LBody;
  lfooter : option Footer
}.

(** [filteredTodos] of lines 60-64, each shown record with its position
    in [todos]. *)
Fixpoint lshown (f : Filter) (k : nat) (todos : list jval) : option (list (nat * jval)) :=
  match todos with
  | [] => Some []
  | todo :: l =>
      match lfilter_pred f todo, lshown f (S k) l with
      | Some b, Some r => Some (if b then (k, todo) :: r else r)
      | _, _ => None
      end
  end.

(** The key and the id of the row of the record at position [k]; [None]:
    reading [todo.id] or turning it into a key threw. *)
Definition row_key (k : nat) (todo : jval) : option (option jsstr * idref) :=
  match get_field todo FId with
  | None => None
  | Some x => match react_key x with Some key => Some (key, id_ref k x) | None => None end
  end.

Definition lrow_of (ki : option jsstr * idref) (todo : jval) : option LRow :=
  match get_field todo FCompleted, get_field todo FText with
  | Some c, Some tx =>
      match render_mark c, render_child_jsv tx with
      | Some m, Some t => Some {| lrow_key := ki.1; lrow_id := ki.2; lrow_checked := truthy_jsv c;
                                   lrow_mark := m; lrow_text := t |}
      | _, _ => None
      end
  | _, _ => None
  end.

(** The row keys, in order (React builds every element of the list before
    it renders any of them). *)
Fixpoint row_keys (shown : list (nat * jval)) : option (list (option jsstr * idref)) :=
  match shown with
  | [] => Some []
  | (k, todo) :: l =>
      match row_key k todo, row_keys l with
      | Some ki, Some r => Some (ki :: r)
      | _, _ => None
      end
  end.

Fixpoint lrows_of (kis : list (option jsstr * idref)) (l : list jval) : option (list LRow) :=
  match kis, l with
  | ki :: kis', todo :: l' =>
      match lrow_of ki todo, lrows_of kis' l' with
      | Some r, Some rs => Some (r :: rs)
      | _, _ => None
      end
  | _, _ => Some []
  end.

(** The render of lines 60-163: the filter callback and the two counts
    read [todo.completed] first, then the row elements are built with
    their keys, then React renders their children; [None]: the render
    threw. *)
Definition lrender (c : LComp) : option LPage :=
  match lshown (lfilter c) 0 (ltodos c), lactiveCount (ltodos c),
        lcompletedCount (ltodos c) with
  | Some shown, Some na, Some nc =>
      let page body := {| lfilter_buttons := map (render_filter_button (lfilter c)) filters;
                          linput_value := lnewTodo c;
                          ladd_disabled := negb (truthy (trim (lnewTodo c)));
                          lbody := body;
                          lfooter := footer_of (length (ltodos c)) na nc |} in
      match shown with
      | [] => Some (page (LEmptyState (empty_text (lfilter c))))
      | _ =>
          match row_keys shown with
          | Some kis => (fun rows => page (LRows rows)) <$> lrows_of kis (map snd shown)
          | None => None
          end
      end
  | _, _, _ => None
  end.

(** ** Updates, events, commit *)

#[export] Instance decimal_eq_dec : EqDecision decimal.
Proof. solve_decision. Defined.

#[export] Instance prim_eq_dec : EqDecision prim.
Proof. solve_decision. Defined.

#[export] Instance idref_eq_dec : EqDecision idref.
Proof. solve_decision. Defined.

Inductive LUpdate :=
  | LSetTodos (f : list jval -> option (list jval))
  | LSetNewTodo (s : jsstr)
  | LSetFilter (f : Filter).

(** An update as React applies it; [None]: the updater threw. *)
Definition lapply_update (c : LComp) (u : LUpdate) : option LComp :=
  match u with
  | LSetTodos f => (fun l => {| ltodos := l; lnewTodo := lnewTodo c; lfilter := lfilter c |})
                     <$> f (ltodos c)
  | LSetNewTodo s => Some {| ltodos := ltodos c; lnewTodo := s; lfilter := lfilter c |}
  | LSetFilter f => Some {| ltodos := ltodos c; lnewTodo := lnewTodo c; lfilter := f |}
  end.

Fixpoint lapply_updates (us : list LUpdate) (c : LComp) : option LComp :=
  match us with
  | [] => Some c
  | u :: us' => match lapply_update c u with Some c' => lapply_updates us' c' | None => None end
  end.

Definition is_lset_todos (u : LUpdate) : bool :=
  match u with LSetTodos _ => true | _ => false end.

(** The handlers of lines 32-58 and the inline handlers of the JSX. *)
Definition laddTodo (c : LComp) (now1 now2 : Z) : list LUpdate :=
  if negb (truthy (trim (lnewTodo c))) then []
  else [LSetTodos (ladd_update (new_todo (lnewTodo c) now1 now2)); LSetNewTodo []].

(** The events of the page; a row's buttons pass that row's [todo.id]. *)
Inductive LEvent :=
  | LChange (value : jsstr)
  | LKeyDown (key : jsstr) (now1 now2 : Z)
  | LClickAdd (now1 now2 : Z)
  | LClickFilter (f : Filter)
  | LClickToggle (i : idref)
  | LClickDelete (i : idref)
  | LClickClear.

Definition lhandle (c : LComp) (ev : LEvent) : list LUpdate :=
  match ev with
  | LChange v => [LSetNewTodo v]
  | LKeyDown key now1 now2 => if str_eqb key (js "Enter") then laddTodo c now1 now2 else []
  | LClickAdd now1 now2 => laddTodo c now1 now2
  | LClickFilter f => [LSetFilter f]
  | LClickToggle i => [LSetTodos (ltoggle_update i)]
  | LClickDelete i => [LSetTodos (ldelete_update i)]
  | LClickClear => [LSetTodos lclear_update]
  end.

(** The events a rendered page offers. *)
Definition loffers (p : LPage) (ev : LEvent) : bool :=
  match ev with
  | LChange _ | LKeyDown _ _ _ => true
  | LClickAdd _ _ => negb (ladd_disabled p)
  | LClickFilter f => existsb (fun b => bool_decide (fb_filter b = f)) (lfilter_buttons p)
  | LClickToggle i | LClickDelete i =>
      match lbody p with
      | LRows rows => bool_decide (i ∈ map lrow_id rows)
      | LEmptyState _ => false
      end
  | LClickClear => match lfooter p with Some f => clear_button f | None => false end
  end.

Section Runtime.
Context {S : Type} `{Storage S}.

(** The component with its store, or unmounted by an exception with the
    store as it then was. *)
Inductive LResult :=
  | LOk (c : LComp) (s : S)
  | LCrash (s : S).

(** Lines 28-30 with the list of values. *)
Definition lsave_effect (c : LComp) (s : S) : S :=
  setItem s STORAGE_KEY (stringify (JArr (ltodos c))).

(** React applies the updates while it renders.  An updater or a render
    that throws unmounts the component before the commit, so no effect
    runs; otherwise the save effect runs when [todos] changed. *)
Definition lcommit (c : LComp) (s : S) (us : list LUpdate) : LResult :=
  match lapply_updates us c with
  | None => LCrash s
  | Some c' =>
      match lrender c' with
      | Some _ => LOk c' (if existsb is_lset_todos us then lsave_effect c' s else s)
      | None => LCrash s
      end
  end.

(** One user event on the page the state renders. *)
Definition lstep_fn (r : LResult) (ev : LEvent) : LResult :=
  match r with
  | LOk c s =>
      match lrender c with
      | Some p => if loffers p ev then lcommit c s (lhandle c ev) else r
      | None => LCrash s
      end
  | _ => r
  end.

Definition lrun (r : LResult) (evs : list LEvent) : LResult := fold_left lstep_fn evs r.

(** The re-render after the mount effects with the last queued value:
    [todos.filter] throws on anything but an array. *)
Definition lsettle (s : S) (pending : list jval) : LResult :=
  match last pending with
  | None => LOk initial_lcomp s
  | Some (JArr l) =>
      let c := {| ltodos := map js_of_json l; lnewTodo := []; lfilter := All |} in
      match lrender c with
      | Some _ => LOk c (lsave_effect c s)
      | None => LCrash s
      end
  | Some _ => LCrash s
  end.

(** The mount, as in [App.mount]: the load effect, the save effect of the
    first commit, then the re-render. *)
Definition lmount (s0 : S) : LResult :=
  match load_effect s0 with
  | LoadThrow => LCrash s0
  | r => lsettle (save_effect initial_comp s0) (queued r)
  end.
End Runtime.
Arguments LResult S : clear implicits.

(** ** The typed model is this model on lists of records *)

(** A state of [App.v] as a state of this file: each record as the object
    [encode_todo] writes, which is the object literal of lines 35-40. *)
Definition lift (c : Comp) : LComp :=
  {| ltodos := map encode_todo (todos c); lnewTodo := newTodo c; lfilter := filter c |}.

Definition lift_event (ev : Event) : LEvent :=
  match ev with
  | EvChange v => LChange v
  | EvKeyDown k n1 n2 => LKeyDown k n1 n2
  | EvClickAdd n1 n2 => LClickAdd n1 n2
  | EvClickFilter f => LClickFilter f
  | EvClickToggle i => LClickToggle (IPrim (PStr i))
  | EvClickDelete i => LClickDelete (IPrim (PStr i))
  | EvClickClear => LClickClear
  end.

Definition lift_row (t : Todo) : LRow :=
  {| lrow_key := Some (id t); lrow_id := IPrim (PStr (id t)); lrow_checked := completed t;
     lrow_mark := if completed t then Checkmark else MarkText []; lrow_text := [text t] |}.

Definition lift_page (c : Comp) : LPage :=
  {| lfilter_buttons := map (render_filter_button (filter c)) filters;
     linput_value := newTodo c;
     ladd_disabled := negb (truthy (trim (newTodo c)));
     lbody := match filteredTodos (filter c) (todos c) with
              | [] => LEmptyState (empty_text (filter c))
              | shown => LRows (map lift_row shown)
              end;
     lfooter := render_footer_of (todos c) |}.

Lemma get_field_encode t f :
  get_field (encode_todo t) f
  = Some (Val (match f with
               | FId => JStr (id t) | FText => JStr (text t)
               | FCompleted => JBool (completed t)
               end)).
Proof. by destruct f. Qed.

Lemma map_opt_encode (g : jval -> option jval) (h : Todo -> Todo) l :
  (forall t, g (encode_todo t) = Some (encode_todo (h t))) ->
  map_opt g (map encode_todo l) = Some (map encode_todo (map h l)).
Proof. intros Hg. induction l as [|t l IH]; simpl; [done|]. by rewrite Hg, IH. Qed.

Lemma filter_opt_encode (q : jval -> option bool) (p : Todo -> bool) l :
  (forall t, q (encode_todo t) = Some (p t)) ->
  filter_opt q (map encode_todo l) = Some (map encode_todo (List.filter p l)).
Proof.
  intros Hq. induction l as [|t l IH]; simpl; [done|]. rewrite Hq, IH. by destruct (p t).
Qed.

Lemma ltoggle_one_encode k i t :
  ltoggle_one k (IPrim (PStr i)) (encode_todo t) = Some (encode_todo (toggle_one i t)).
Proof.
  unfold ltoggle_one, toggle_one. rewrite !get_field_encode. cbn [id_eq strict_eq truthy_jsv].
  by destruct (str_eqb (id t) i).
Qed.

Lemma is_active_encode t : is_active (encode_todo t) = Some (negb (completed t)).
Proof. done. Qed.

Lemma is_completed_encode t : is_completed (encode_todo t) = Some (completed t).
Proof. done. Qed.

Lemma lfilteredTodos_encode f l :
  lfilteredTodos f (map encode_todo l) = Some (map encode_todo (filteredTodos f l)).
Proof. apply filter_opt_encode. by destruct f. Qed.

Lemma lshown_snd f k l : map snd <$> lshown f k l = lfilteredTodos f l.
Proof.
  unfold lfilteredTodos. revert k. induction l as [|t l IH]; intros k; simpl; [done|].
  rewrite <- (IH (S k)). destruct (lfilter_pred f t) as [[]|], (lshown f (S k) l); done.
Qed.

(** The shown records of a list of records, with their positions. *)
Lemma lshown_encode f l :
  exists shown, lshown f 0 (map encode_todo l) = Some shown /\
                map snd shown = map encode_todo (filteredTodos f l).
Proof.
  pose proof (lshown_snd f 0 (map encode_todo l)) as E.
  rewrite lfilteredTodos_encode in E.
  destruct (lshown f 0 (map encode_todo l)) as [shown|]; [|done].
  exists shown. by injection E.
Qed.

Lemma lrow_of_encode t :
  lrow_of (Some (id t), IPrim (PStr (id t))) (encode_todo t) = Some (lift_row t).
Proof. unfold lrow_of, lift_row. rewrite !get_field_encode. by destruct (completed t). Qed.

Lemma row_keys_encode shown l :
  map snd shown = map encode_todo l ->
  row_keys shown = Some (map (fun t => (Some (id t), IPrim (PStr (id t)))) l).
Proof.
  revert shown. induction l as [|t l IH]; intros [|[k v] shown] E; simplify_eq/=; [done|].
  by rewrite IH.
Qed.

Lemma lrows_of_encode l :
  lrows_of (map (fun t => (Some (id t), IPrim (PStr (id t)))) l) (map encode_todo l)
  = Some (map lift_row l).
Proof. induction l as [|t l IH]; simpl; [done|]. by rewrite lrow_of_encode, IH. Qed.

(** On a list of records, the render never throws and shows the rows of
    [View.render]. *)
Lemma lrender_lift c : lrender (lift c) = Some (lift_page c).
Proof.
  unfold lrender, lift_page, lactiveCount, lcompletedCount. cbn [ltodos lfilter lnewTodo lift].
  destruct (lshown_encode (filter c) (todos c)) as (shown & -> & E).
  rewrite (filter_opt_encode is_active (fun t => negb (completed t))) by done.
  rewrite (filter_opt_encode is_completed completed) by done.
  cbn [fmap option_fmap option_map]. rewrite !length_map.
  unfold render_footer_of.
  destruct (filteredTodos (filter c) (todos c)) as [|t l] eqn:Ef;
    destruct shown as [|kv shown]; try done.
  rewrite (row_keys_encode _ _ E), E, lrows_of_encode. done.
Qed.

Lemma lift_rows_mem i l :
  bool_decide (IPrim (PStr i) ∈ map lrow_id (map lift_row l))
  = existsb (fun t => str_eqb (id t) i) l.
Proof.
  induction l as [|t l IH]; simpl; [done|].
  rewrite (bool_decide_ext _ _ (elem_of_cons _ _ _)), bool_decide_or, IH. f_equal.
  unfold str_eqb. apply bool_decide_ext. split; [by intros [= ->] | by intros ->].
Qed.

(** The page of a list of records offers the events of [App.available]. *)
Lemma loffers_lift c ev : loffers (lift_page c) (lift_event ev) = available c ev.
Proof.
  unfold lift_page.
  destruct ev as [v|key n1 n2|n1 n2|f|i|i|];
    cbn [loffers lift_event available lbody lfooter ladd_disabled lfilter_buttons];
    try reflexivity.
  - apply negb_involutive.
  - by destruct f.
  - destruct (filteredTodos (filter c) (todos c)); [done|apply lift_rows_mem].
  - destruct (filteredTodos (filter c) (todos c)); [done|apply lift_rows_mem].
  - unfold render_footer_of, footer_of.
    by destruct (length (todos c)), (completedCount (todos c)).
Qed.

Lemma laddTodo_lift c n1 n2 :
  lapply_updates (laddTodo (lift c) n1 n2) (lift c)
    = Some (lift (fold_left apply_update (addTodo c n1 n2) c)) /\
  existsb is_lset_todos (laddTodo (lift c) n1 n2) = existsb is_set_todos (addTodo c n1 n2).
Proof. unfold laddTodo, addTodo. cbn [lnewTodo lift]. by destruct (negb _). Qed.

(** The updates a handler queues, applied to a list of records, give the
    records [App.handle]'s updates give. *)
Lemma lhandle_lift c ev :
  lapply_updates (lhandle (lift c) (lift_event ev)) (lift c)
    = Some (lift (fold_left apply_update (handle c ev) c)) /\
  existsb is_lset_todos (lhandle (lift c) (lift_event ev)) = existsb is_set_todos (handle c ev).
Proof.
  destruct ev as [v|key n1 n2|n1 n2|f|i|i|]; cbn [lift_event lhandle handle];
    try done; try apply laddTodo_lift.
  - destruct (str_eqb key _); [apply laddTodo_lift|done].
  - unfold ltoggle_update. cbn. rewrite (imap_opt_const _ (ltoggle_one 0 (IPrim (PStr i)))) by done.
    by rewrite (map_opt_encode _ (toggle_one i)) by apply ltoggle_one_encode.
  - unfold ldelete_update. cbn.
    rewrite (ifilter_opt_const _ (fun todo => (fun x => negb (strict_eq x (PStr i))) <$>
                                               get_field todo FId)) by done.
    rewrite (filter_opt_encode _ (fun t => negb (str_eqb (id t) i))) by done. done.
  - unfold lclear_update. cbn.
    rewrite (filter_opt_encode _ (fun t => negb (completed t))) by done. done.
Qed.

Lemma lsave_effect_lift {S} `{Storage S} c s : lsave_effect (lift c) s = save_effect c s.
Proof. done. Qed.

(** The simulation diagram: one event on a list of records. *)
Lemma lstep_lift {S} `{Storage S} c s ev :
  lstep_fn (LOk (lift c) s) (lift_event ev)
  = LOk (lift (step_fn (c, s) ev).1) (step_fn (c, s) ev).2.
Proof.
  unfold lstep_fn, step_fn. rewrite lrender_lift, loffers_lift. cbn [fst snd].
  destruct (available c ev); [|done].
  unfold lcommit, commit. destruct (lhandle_lift c ev) as [-> ->].
  rewrite lrender_lift. by destruct (existsb is_set_todos (handle c ev)).
Qed.

(** C4: The model of [App.v] is this model on lists of records: from a list
    of records, any sequence of events gives the same states and the same
    store in both, and the page never throws.  The typed model refines the
    model of the values JavaScript really holds. *)
Theorem lrun_lift {S} `{Storage S} c s evs :
  lrun (LOk (lift c) s) (map lift_event evs) = LOk (lift (run (c, s) evs).1) (run (c, s) evs).2.
Proof.
  revert c s. induction evs as [|ev evs IH]; intros c s; [done|].
  cbn [lrun run map fold_left]. rewrite lstep_lift.
  destruct (step_fn (c, s) ev) as [c' s']. apply IH.
Qed.

Lemma js_of_json_encode t : js_of_json (encode_todo t) = encode_todo t.
Proof. done. Qed.

(** A key that throws throws at every position. *)
Lemma row_key_None k k' v : row_key k v = None -> row_key k' v = None.
Proof. unfold row_key. by repeat case_match. Qed.

Lemma row_keys_None shown k v : In (k, v) shown -> row_key k v = None -> row_keys shown = None.
Proof.
  induction shown as [|[k' w] shown IH]; intros Hin Hk; [done|]. simpl.
  destruct Hin as [[= -> ->]|Hin]; [by rewrite Hk|].
  rewrite IH by done. by destruct (row_key k' w).
Qed.

Lemma lshown_all k l shown : lshown All k l = Some shown -> map snd shown = l.
Proof.
  intros E. pose proof (lshown_snd All k l) as F. rewrite E in F.
  unfold lfilteredTodos in F. rewrite (filter_opt_Some (fun _ => true)) in F by done.
  rewrite filter_id_all in F by done. by injection F.
Qed.

(** Under the filter All every record is shown, so a record whose key
    throws makes the render throw. *)
Lemma lrender_row_throws c v :
  lfilter c = All -> In v (ltodos c) -> row_key 0 v = None -> lrender c = None.
Proof.
  intros Hf Hin Hk. unfold lrender. rewrite Hf.
  destruct (lshown All 0 (ltodos c)) as [shown|] eqn:Es; [|done].
  apply lshown_all in Es. rewrite <- Es in Hin. apply in_map_iff in Hin as ([k w] & <- & Hin).
  destruct (lactiveCount (ltodos c)), (lcompletedCount (ltodos c)); try done.
  destruct shown as [|kv shown']; [done|].
  rewrite (row_keys_None _ k w Hin) by (by eapply row_key_None). done.
Qed.

Lemma truthy_of_parse saved v : JSON_parse saved = Some v -> truthy saved = true.
Proof. by destruct saved. Qed.

(** A saved record whose id is the empty object. *)
Definition obj_record (tx : jsstr) (b : bool) : jval :=
  JObj [(js "id", JObj []); (js "text", JStr tx); (js "completed", JBool b)].

Section Mount.
Context {S : Type} `{Storage S} `{!StorageLaws S}.

(** The mount with a value JSON.parse read from the store. *)
Lemma lmount_parsed s0 saved v :
  getItem s0 STORAGE_KEY = Some saved -> JSON_parse saved = Some v ->
  lmount s0 = lsettle (save_effect initial_comp s0) [v].
Proof.
  intros Hg Hp. unfold lmount, load_effect. rewrite Hg, (truthy_of_parse saved v Hp), Hp.
  done.
Qed.

(** C23: Reloading the page in a reachable state with well-formed records
    mounts the same component in both models: the typed mount's list,
    lifted, is what this model mounts, and the stores agree. *)
Theorem lmount_reload c s :
  reachable (c, s) -> todos_wf (todos c) = true ->
  exists c' s', mount s = MountOk c' s' /\ lmount s = LOk (lift c') s'.
Proof.
  intros Hr Hwf. apply mirrors_of_reachable in Hr. simpl in Hr.
  pose proof (load_effect_mirrors c s Hwf Hr) as Hl.
  pose proof (decode_encode (todos c) Hwf) as D.
  set (c' := {| todos := todos c; newTodo := []; filter := All |}).
  exists c', (save_effect c' (save_effect initial_comp s)). split.
  - unfold mount, settle. rewrite Hl. cbn [queued last].
    unfold encode_todos in D |- *. cbv beta iota. by rewrite D.
  - unfold lmount, lsettle. rewrite Hl. cbn [queued last]. unfold encode_todos.
    rewrite map_map, (map_ext _ encode_todo) by apply js_of_json_encode.
    change {| ltodos := map encode_todo (todos c); lnewTodo := []; lfilter := All |}
      with (lift c').
    by rewrite lrender_lift.
Qed.

(** C13: A saved array holding an element whose [todo.id] cannot be read
    or turned into a React key ([null], or a record whose [id] is an object
    with its own [toString] member) crashes the component on mount, after
    the save effect of the first commit wrote "[]": the reminders that
    were saved are lost, where the spec asks to fall back to an empty list
    without an error (spec sections 4.1 and 7). *)
Theorem lmount_row_throws s0 saved l v :
  getItem s0 STORAGE_KEY = Some saved -> JSON_parse saved = Some (JArr l) -> In v l ->
  row_key 0 (js_of_json v) = None ->
  exists s, lmount s0 = LCrash s /\ getItem s STORAGE_KEY = Some (js "[]").
Proof.
  intros Hg Hp Hn Hk. exists (save_effect initial_comp s0). split.
  - rewrite (lmount_parsed s0 saved _ Hg Hp). unfold lsettle. cbn [last].
    rewrite (lrender_row_throws _ (js_of_json v)); [done | done | by apply in_map | done].
  - apply getItem_setItem_eq.
Qed.

(** C29: A saved record whose [completed] is the number [0] is shown as an
    active reminder whose toggle button holds the text "0":
    [{todo.completed && <svg/>}] renders the falsy number itself. *)
Theorem lmount_zero_mark s0 saved i tx d :
  getItem s0 STORAGE_KEY = Some saved ->
  JSON_parse saved
    = Some (JArr [JObj [(js "id", JStr i); (js "text", JStr tx); (js "completed", JNum d)]]) ->
  dmant d = 0%N ->
  exists c s p, lmount s0 = LOk c s /\ lrender c = Some p /\
    lbody p = LRows [{| lrow_key := Some i; lrow_id := IPrim (PStr i); lrow_checked := false;
                        lrow_mark := MarkText [js "0"]; lrow_text := [tx] |}].
Proof.
  intros Hg Hp Hd. rewrite (lmount_parsed s0 saved _ Hg Hp).
  destruct d as [neg m e]. cbn in Hd. subst m.
  unfold lsettle. cbn [last]. eexists _, _, _. split_and!; [reflexivity|reflexivity|done].
Qed.
(** C30: A saved record whose [completed] is a non-empty string, such as
    "false", counts as completed: [!todo.completed] and
    [todo.completed ? ... : ...] use ToBoolean, for which every non-empty
    string is true.  The row is checked, the footer says "0 remaining",
    and Clear completed deletes the record (the spec's [completed] is a
    boolean, spec section 6). *)
Theorem lmount_string_completed s0 saved i tx b :
  getItem s0 STORAGE_KEY = Some saved ->
  JSON_parse saved
    = Some (JArr [JObj [(js "id", JStr i); (js "text", JStr tx); (js "completed", JStr b)]]) ->
  b <> [] ->
  exists c s p s', lmount s0 = LOk c s /\ lrender c = Some p /\
    lbody p = LRows [{| lrow_key := Some i; lrow_id := IPrim (PStr i); lrow_checked := true;
                        lrow_mark := Checkmark; lrow_text := [tx] |}] /\
    option_map remaining_text (lfooter p) = Some (js "0 remaining") /\
    lrun (LOk c s) [LClickClear] = LOk {| ltodos := []; lnewTodo := []; lfilter := All |} s'.
Proof.
  intros Hg Hp Hb. rewrite (lmount_parsed s0 saved _ Hg Hp).
  destruct b as [|u b]; [done|].
  unfold lsettle. cbn [last]. eexists _, _, _, _. split_and!; reflexivity.
Qed.
(** C27: Records saved without an [id] are all toggled by one click: the
    toggle button of such a row passes [undefined], and [todo.id === id]
    holds for every record whose [id] is undefined (spec section 4.1 asks
    ToggleTask to flip the one record the row shows). *)
Theorem lmissing_ids_toggle_together s0 saved a b :
  getItem s0 STORAGE_KEY = Some saved ->
  JSON_parse saved
    = Some (JArr [JObj [(js "text", JStr a); (js "completed", JBool false)];
                  JObj [(js "text", JStr b); (js "completed", JBool false)]]) ->
  exists s, lrun (lmount s0) [LClickToggle (IPrim PUndef)]
    = LOk {| ltodos := [JObj [(js "text", JStr a); (js "completed", JBool true)];
                        JObj [(js "text", JStr b); (js "completed", JBool true)]];
             lnewTodo := []; lfilter := All |} s.
Proof.
  intros Hg Hp. rewrite (lmount_parsed s0 saved _ Hg Hp). eexists. reflexivity.
Qed.
(** C28: Object ids are compared by identity: two records saved with
    the ids [{}] and [{}] get rows with the same React key
    "[object Object]", yet a click on the toggle button of the first row
    flips the first record only. *)
Theorem lobject_ids_toggle_apart s0 saved a b :
  getItem s0 STORAGE_KEY = Some saved ->
  JSON_parse saved = Some (JArr [obj_record a false; obj_record b false]) ->
  exists c s rs s', lmount s0 = LOk c s /\ option_map lbody (lrender c) = Some (LRows rs) /\
    map lrow_key rs = [Some (js "[object Object]"); Some (js "[object Object]")] /\
    lrun (LOk c s) [LClickToggle (IObj 0)]
      = LOk {| ltodos := [obj_record a true; obj_record b false];
               lnewTodo := []; lfilter := All |} s'.
Proof.
  intros Hg Hp. rewrite (lmount_parsed s0 saved _ Hg Hp).
  eexists _, _, _, _. split_and!; reflexivity.
Qed.
End Mount.

(** ** Witnesses *)

(** A JSON text written with single quotes for double quotes. *)
Definition json_text (t : string) : jsstr := map (fun c => if c =? 39 then 34 else c) (js t).

Definition store_with (saved : jsstr) : gmap jsstr jsstr := <[STORAGE_KEY := saved]> empty_store.

Lemma lmount_reload_witness :
  reachable mounted_saved /\ todos_wf (todos mounted_saved.1) = true /\
  exists c' s', mount mounted_saved.2 = MountOk c' s' /\ lmount mounted_saved.2 = LOk (lift c') s'.
Proof.
  assert (H : reachable mounted_saved)
    by (unfold mounted_saved; apply reachable_mount with saved_store; vm_compute; reflexivity).
  assert (Hw : todos_wf (todos mounted_saved.1) = true) by (vm_compute; reflexivity).
  split_and!; [exact H|exact Hw|].
  apply (lmount_reload mounted_saved.1 mounted_saved.2); [exact H|exact Hw].
Defined.

Definition tostring_saved : jsstr :=
  json_text "[{'id':'a','text':'t','completed':false,'createdAt':0},{'id':{'toString':1},'text':'u'}]".

Definition tostring_record : jval :=
  JObj [(js "id", JObj [(js "toString", JNum (decimal_of_Z 1))]); (js "text", JStr (js "u"))].

Lemma lmount_row_throws_witness :
  getItem (store_with tostring_saved) STORAGE_KEY = Some tostring_saved /\
  JSON_parse tostring_saved = Some (JArr [encode_todo (mkTodo (js "a") (js "t") false 0);
                                          tostring_record]) /\
  row_key 0 (js_of_json tostring_record) = None /\
  exists s, lmount (store_with tostring_saved) = LCrash s /\
            getItem s STORAGE_KEY = Some (js "[]").
Proof.
  split_and!; [reflexivity | vm_compute; reflexivity | vm_compute; reflexivity |].
  apply (lmount_row_throws _ tostring_saved [encode_todo (mkTodo (js "a") (js "t") false 0);
                                             tostring_record] tostring_record);
    [reflexivity | vm_compute; reflexivity | right; left; reflexivity | vm_compute; reflexivity].
Defined.

Definition zero_saved : jsstr := json_text "[{'id':'a','text':'t','completed':0}]".

Lemma lmount_zero_mark_witness :
  getItem (store_with zero_saved) STORAGE_KEY = Some zero_saved /\
  JSON_parse zero_saved
    = Some (JArr [JObj [(js "id", JStr (js "a")); (js "text", JStr (js "t"));
                        (js "completed", JNum (decimal_of_Z 0))]]) /\
  dmant (decimal_of_Z 0) = 0%N /\
  exists c s p, lmount (store_with zero_saved) = LOk c s /\ lrender c = Some p /\
    lbody p = LRows [{| lrow_key := Some (js "a"); lrow_id := IPrim (PStr (js "a"));
                        lrow_checked := false;
                        lrow_mark := MarkText [js "0"]; lrow_text := [js "t"] |}].
Proof.
  split_and!; [reflexivity|vm_compute; reflexivity|reflexivity|].
  apply (lmount_zero_mark _ zero_saved (js "a") (js "t") (decimal_of_Z 0));
    [reflexivity|vm_compute; reflexivity|reflexivity].
Defined.

Definition noid_saved : jsstr :=
  json_text "[{'text':'a','completed':false},{'text':'b','completed':false}]".

Lemma lmissing_ids_toggle_together_witness :
  getItem (store_with noid_saved) STORAGE_KEY = Some noid_saved /\
  JSON_parse noid_saved
    = Some (JArr [JObj [(js "text", JStr (js "a")); (js "completed", JBool false)];
                  JObj [(js "text", JStr (js "b")); (js "completed", JBool false)]]) /\
  exists s, lrun (lmount (store_with noid_saved)) [LClickToggle (IPrim PUndef)]
    = LOk {| ltodos := [JObj [(js "text", JStr (js "a")); (js "completed", JBool true)];
                        JObj [(js "text", JStr (js "b")); (js "completed", JBool true)]];
             lnewTodo := []; lfilter := All |} s.
Proof.
  split_and!; [reflexivity|vm_compute; reflexivity|].
  apply (lmissing_ids_toggle_together _ noid_saved (js "a") (js "b"));
    [reflexivity|vm_compute; reflexivity].
Defined.

Definition objid_saved : jsstr :=
  json_text "[{'id':{},'text':'a','completed':false},{'id':{},'text':'b','completed':false}]".

Lemma lobject_ids_toggle_apart_witness :
  getItem (store_with objid_saved) STORAGE_KEY = Some objid_saved /\
  JSON_parse objid_saved = Some (JArr [obj_record (js "a") false; obj_record (js "b") false]) /\
  exists c s rs s', lmount (store_with objid_saved) = LOk c s /\
    option_map lbody (lrender c) = Some (LRows rs) /\
    map lrow_key rs = [Some (js "[object Object]"); Some (js "[object Object]")] /\
    lrun (LOk c s) [LClickToggle (IObj 0)]
      = LOk {| ltodos := [obj_record (js "a") true; obj_record (js "b") false];
               lnewTodo := []; lfilter := All |} s'.
Proof.
  split_and!; [reflexivity | vm_compute; reflexivity |].
  apply (lobject_ids_toggle_apart _ objid_saved (js "a") (js "b"));
    [reflexivity | vm_compute; reflexivity].
Defined.

Definition string_saved : jsstr :=
  json_text "[{'id':'a','text':'t','completed':'false'}]".

Lemma lmount_string_completed_witness :
  getItem (store_with string_saved) STORAGE_KEY = Some string_saved /\
  JSON_parse string_saved
    = Some (JArr [JObj [(js "id", JStr (js "a")); (js "text", JStr (js "t"));
                        (js "completed", JStr (js "false"))]]) /\
  js "false" <> [] /\
  exists c s p s', lmount (store_with string_saved) = LOk c s /\ lrender c = Some p /\
    lbody p = LRows [{| lrow_key := Some (js "a"); lrow_id := IPrim (PStr (js "a"));
                        lrow_checked := true; lrow_mark := Checkmark; lrow_text := [js "t"] |}] /\
    option_map remaining_text (lfooter p) = Some (js "0 remaining") /\
    lrun (LOk c s) [LClickClear] = LOk {| ltodos := []; lnewTodo := []; lfilter := All |} s'.
Proof.
  assert (Hb : js "false" <> []) by discriminate.
  split_and!; [reflexivity | vm_compute; reflexivity | exact Hb |].
  apply (lmount_string_completed _ string_saved (js "a") (js "t") (js "false"));
    [reflexivity | vm_compute; reflexivity | exact Hb].
Defined.

End Untyped.
