(* ===== verification/Quota.v ===== *)
(** * Writes that exceed the storage quota

    The save effect of lines 28-30 calls [localStorage.setItem] with no
    [try]: when the browser refuses the write, the exception escapes the
    effect.  Web Storage's [setItem(key, value)] does nothing when the key
    already holds the value, and otherwise throws a QuotaExceededError,
    leaving the storage area unchanged, when the new area would not fit
    in the quota.  The area's size is the number of UTF-16 code units of
    its keys and values ([area_size]), as Chromium and Firefox count it;
    the quota is a parameter of every definition here.

    An exception thrown by a passive effect is not caught by the
    component, so React unmounts it: the outcome [QUnmounted], which no
    event reaches any more.  [q_commit], [q_step_fn], [q_run] and
    [q_mount] are [App.commit], [App.step_fn], [App.run] and [App.mount]
    with that [setItem].

    Theorems: the mount is [App.mount] unless a save throws, and then it
    crashes ([q_mount_cases]); a store within the quota stays within it
    ([q_setItem_within]); while mounted, the store mirrors the list ([q_run_mirrors]); a run is
    the run of [App.v] until the first write that does not fit, where the
    component is unmounted with the store of the last commit that fitted
    ([q_run_run]); a list change that does not fit unmounts the component
    ([q_step_quota]); and from any state whose list fits, a reminder
    added when its list does not fit is lost: the component is unmounted
    and the next mount shows the old list ([quota_loses_reminder]), where
    spec section 7 asks that a failed write not stop the component. *)

From Stdlib Require Import String.
From stdpp Require Import base list gmap fin_maps.
From Stdlib Require Import ZArith Lia.
From S2P Require Import Prelude JsString Json Todo Storage App.
Import JsString Json Todo App.

Module Quota.

Abbreviation store := (gmap jsstr jsstr).

(** ** The storage area *)

(** The code units of the keys and values of the area. *)
Definition area_size (s : store) : nat :=
  map_fold (fun k v acc => length k + length v + acc)%nat 0%nat s.

Section Area.
Variable quota : nat.

Definition within_quota (s : store) : bool := Nat.leb (area_size s) quota.

(** [Storage.setItem(key, value)] with a quota: [None] is the
    QuotaExceededError, thrown before the area changes. *)
Definition q_setItem (s : store) (k v : jsstr) : option store :=
  if decide (s !! k = Some v) then Some s
  else if Nat.leb (area_size (delete k s) + (length k + length v)) quota
       then Some (<[k := v]> s)
       else None.

(** ** The component with that [setItem] *)

Inductive QResult :=
  | QOk (c : Comp) (s : store)
  | QUnmounted (s : store).

(** [localStorage.setItem(STORAGE_KEY, JSON.stringify(todos))]. *)
Definition q_save_effect (c : Comp) (s : store) : option store :=
  q_setItem s STORAGE_KEY (serialize (todos c)).

(** [App.commit]: the updates in order, then the save effect when [todos]
    changed identity; its exception unmounts the component. *)
Definition q_commit (c : Comp) (s : store) (us : list Update) : QResult :=
  let c' := fold_left apply_update us c in
  if existsb is_set_todos us then
    match q_save_effect c' s with
    | Some s' => QOk c' s'
    | None => QUnmounted s
    end
  else QOk c' s.

Definition q_step_fn (r : QResult) (ev : Event) : QResult :=
  match r with
  | QOk c s => if available c ev then q_commit c s (handle c ev) else r
  | QUnmounted _ => r
  end.

Definition q_run (r : QResult) (evs : list Event) : QResult := fold_left q_step_fn evs r.

(** [App.settle]: the re-render with the loaded list and its save. *)
Definition q_settle (s : store) (pending : list jval) : Mounted (S := store) :=
  match last pending with
  | None => MountOk initial_comp s
  | Some v =>
      match v with
      | JArr _ =>
          match decode_todos v with
          | Some l =>
              let c := {| todos := l; newTodo := []; filter := All |} in
              match q_save_effect c s with
              | Some s' => MountOk c s'
              | None => MountCrash s
              end
          | None => MountUnmodelled v s
          end
      | _ => MountCrash s
      end
  end.

(** [App.mount]: the load effect, the save effect of the first commit with
    [todos = []], then the re-render. *)
Definition q_mount (s0 : store) : Mounted (S := store) :=
  match load_effect s0 with
  | LoadThrow => MountCrash s0
  | r =>
      match q_save_effect initial_comp s0 with
      | Some s1 => q_settle s1 (queued r)
      | None => MountCrash s0
      end
  end.
End Area.

(** ** The storage area *)

Lemma area_size_insert (s : store) (k v : jsstr) :
  area_size (<[k := v]> s) = (area_size (delete k s) + (length k + length v))%nat.
Proof.
  rewrite <- insert_delete_eq. unfold area_size.
  rewrite map_fold_insert_L; [symmetry; apply Nat.add_comm | intros; lia | apply lookup_delete_eq].
Qed.

Lemma area_size_lookup (s : store) (k v : jsstr) :
  s !! k = Some v -> area_size s = (area_size (delete k s) + (length k + length v))%nat.
Proof. intros Hk. rewrite <- (insert_id s k v) at 1 by done. apply area_size_insert. Qed.

Section Theorems.
Variable quota : nat.

(** A write that does not throw is [Storage.setItem]. *)
Lemma q_setItem_Some s k v s' : q_setItem quota s k v = Some s' -> s' = setItem s k v.
Proof.
  unfold q_setItem. case_decide as Hk.
  - intros [= <-]. simpl. by rewrite insert_id.
  - case_match; by intros [= <-].
Qed.

(** A store within the quota stays within it. *)
Lemma q_setItem_within s k v s' :
  within_quota quota s = true -> q_setItem quota s k v = Some s' -> within_quota quota s' = true.
Proof.
  unfold q_setItem, within_quota. case_decide; [by intros ? [= <-]|].
  case_match eqn:E; intros ? [= <-]. rewrite area_size_insert. by apply Nat.leb_le, Nat.leb_le in E.
Qed.

(** In a store within the quota, [setItem] throws exactly when the new
    area would not fit. *)
Lemma q_setItem_None s k v :
  within_quota quota s = true ->
  q_setItem quota s k v = None <->
  (quota < area_size (delete k s) + (length k + length v))%nat.
Proof.
  unfold q_setItem, within_quota. intros Hs%Nat.leb_le. case_decide as Hk.
  - pose proof (area_size_lookup s k v Hk). split; [done | intros; exfalso; lia].
  - destruct (Nat.leb_spec (area_size (delete k s) + (length k + length v)) quota);
      split; (done || lia).
Qed.

Lemma q_save_effect_Some c s s' : q_save_effect quota c s = Some s' -> s' = save_effect c s.
Proof. apply q_setItem_Some. Qed.

(** A commit is [App.commit], or the save throws and the store is left. *)
Lemma q_commit_cases c s us :
  q_commit quota c s us = QOk (commit c s us).1 (commit c s us).2 \/
  q_commit quota c s us = QUnmounted s.
Proof.
  unfold q_commit, commit. case_match; [|by left].
  case_match eqn:E; [left; by rewrite (q_save_effect_Some _ _ _ E) | by right].
Qed.

Lemma q_step_fn_cases c s ev :
  q_step_fn quota (QOk c s) ev = QOk (step_fn (c, s) ev).1 (step_fn (c, s) ev).2 \/
  q_step_fn quota (QOk c s) ev = QUnmounted s.
Proof.
  unfold q_step_fn, step_fn. simpl. case_match; [apply q_commit_cases | by left].
Qed.

(** The mount is [App.mount], or a save effect throws and it crashes. *)
Lemma q_settle_cases s pending :
  q_settle quota s pending = settle s pending \/ q_settle quota s pending = MountCrash s.
Proof.
  unfold q_settle, settle. repeat case_match; try by left.
  - simplify_eq. left. by erewrite <- q_save_effect_Some.
  - by right.
Qed.

Lemma q_mount_cases s0 :
  q_mount quota s0 = mount s0 \/ exists s, q_mount quota s0 = MountCrash s.
Proof.
  unfold q_mount, mount. destruct (load_effect s0) as [| |v]; [| by left |].
  all: destruct (q_save_effect quota initial_comp s0) as [s1|] eqn:E; [|right; by eexists].
  all: apply q_save_effect_Some in E as ->.
  all: match goal with
       | |- context [q_settle _ ?s ?p] => destruct (q_settle_cases s p) as [-> | ->]
       end; [by left | right; by eexists].
Qed.

Lemma q_run_unmounted s evs : q_run quota (QUnmounted s) evs = QUnmounted s.
Proof. induction evs as [|ev evs IH]; [done|]. exact IH. Qed.

Lemma q_commit_within c s us c' s' :
  within_quota quota s = true -> q_commit quota c s us = QOk c' s' -> within_quota quota s' = true.
Proof.
  unfold q_commit. intros Hs. case_match; [|by intros [= _ <-]].
  case_match eqn:E; intros [= _ <-]. by eapply q_setItem_within.
Qed.

Lemma q_step_fn_within c s ev c' s' :
  within_quota quota s = true -> q_step_fn quota (QOk c s) ev = QOk c' s' ->
  within_quota quota s' = true.
Proof.
  unfold q_step_fn. intros Hs. case_match; [by apply q_commit_within | by intros [= _ <-]].
Qed.

Lemma step_fn_mirrors c s ev :
  mirrors c s -> mirrors (step_fn (c, s) ev).1 (step_fn (c, s) ev).2.
Proof. unfold step_fn. simpl. case_match; [apply commit_mirrors | done]. Qed.


Lemma q_step_fn_mirrors c s ev c' s' :
  mirrors c s -> q_step_fn quota (QOk c s) ev = QOk c' s' -> mirrors c' s'.
Proof.
  intros Hm. destruct (q_step_fn_cases c s ev) as [E|E]; rewrite E; [|done].
  intros [= <- <-]. by apply step_fn_mirrors.
Qed.

Lemma q_run_cons r ev evs : q_run quota r (ev :: evs) = q_run quota (q_step_fn quota r ev) evs.
Proof. reflexivity. Qed.

(** C24: While the component is mounted under a quota, the store
    holds JSON.stringify(todos) under zos-todos and stays within the
    quota: a write that does not fit never leaves a mounted component
    whose list is not saved. *)
Theorem q_run_mirrors c s evs c' s' :
  mirrors c s -> within_quota quota s = true ->
  q_run quota (QOk c s) evs = QOk c' s' -> mirrors c' s' /\ within_quota quota s' = true.
Proof.
  revert c s. induction evs as [|ev evs IH]; intros c s Hm Hs; [by intros [= <- <-]|].
  rewrite q_run_cons. destruct (q_step_fn quota (QOk c s) ev) as [c1 s1|s1] eqn:E.
  - apply IH; [by eapply q_step_fn_mirrors | by eapply q_step_fn_within].
  - by rewrite q_run_unmounted.
Qed.

(** C15: A run of the component under a quota is the run of [App.v]
    until the first event whose list change does not fit: there the save
    effect throws, React unmounts the component, and the store keeps what
    the last commit that fitted wrote; later events reach nothing. *)
Theorem q_run_run c s evs :
  q_run quota (QOk c s) evs = QOk (run (c, s) evs).1 (run (c, s) evs).2 \/
  exists evs1 ev evs2, evs = evs1 ++ ev :: evs2 /\
    q_step_fn quota (QOk (run (c, s) evs1).1 (run (c, s) evs1).2) ev
      = QUnmounted (run (c, s) evs1).2 /\
    q_run quota (QOk c s) evs = QUnmounted (run (c, s) evs1).2.
Proof.
  revert c s. induction evs as [|ev evs IH]; intros c s; [by left|].
  rewrite q_run_cons. destruct (q_step_fn_cases c s ev) as [E|E]; rewrite E.
  - destruct (IH (step_fn (c, s) ev).1 (step_fn (c, s) ev).2)
      as [H1|(evs1 & ev' & evs2 & -> & H2 & H3)]; rewrite <- surjective_pairing in *.
    + by left.
    + right. by exists (ev :: evs1), ev', evs2.
  - right. exists [], ev, evs. by rewrite q_run_unmounted.
Qed.

(** C16: From a store within the quota, an event the page offers
    unmounts the component, leaving the store as it was, exactly when it
    queues a [setTodos] whose new list does not fit: the area without the
    old value, plus the key and the new text, exceeds the quota. *)
Theorem q_step_quota c s ev :
  within_quota quota s = true -> available c ev = true ->
  q_step_fn quota (QOk c s) ev = QUnmounted s <->
  existsb is_set_todos (handle c ev) = true /\
  (quota < area_size (delete STORAGE_KEY s) +
     (length STORAGE_KEY + length (serialize (todos (fold_left apply_update (handle c ev) c)))))%nat.
Proof.
  intros Hs Hav. unfold q_step_fn, q_commit. rewrite Hav.
  destruct (existsb is_set_todos (handle c ev)); [|by split; [|intros []]].
  unfold q_save_effect. rewrite <- (q_setItem_None _ _ _ Hs).
  case_match; by split; [|intros []].
Qed.
(** A write whose new area fits does not throw. *)
Lemma q_setItem_le (s : store) (k v : jsstr) :
  (area_size (delete k s) + (length k + length v) <= quota)%nat ->
  q_setItem quota s k v = Some (setItem s k v).
Proof.
  unfold q_setItem. case_decide as Hk; [simpl; by rewrite insert_id|].
  intros Hle. by rewrite (proj2 (Nat.leb_le _ _) Hle).
Qed.

Lemma serialize_length l : (2 <= length (serialize l))%nat.
Proof. unfold serialize, encode_todos. cbn [stringify]. rewrite !length_app. simpl. lia. Qed.

(** A mount under the quota from a store that holds a well-formed list
    and fits mounts that list: the save of [[]] and the save of the list
    both fit, since neither is longer than the text already stored. *)
Lemma q_mount_mirrors c s :
  mirrors c s -> within_quota quota s = true -> todos_wf (todos c) = true ->
  exists s', q_mount quota s = MountOk {| todos := todos c; newTodo := []; filter := All |} s'.
Proof.
  intros Hm Hs Hwf. pose proof (load_effect_mirrors c s Hwf Hm) as Hl.
  unfold within_quota in Hs. apply Nat.leb_le in Hs.
  rewrite (area_size_lookup s STORAGE_KEY _ Hm) in Hs.
  pose proof (serialize_length (todos c)) as Hlen.
  pose proof (decode_encode (todos c) Hwf) as D.
  unfold q_mount. rewrite Hl. unfold q_save_effect at 1.
  rewrite q_setItem_le by (change (length (serialize (todos initial_comp))) with 2%nat; lia).
  unfold q_settle. cbn [queued last]. unfold encode_todos in D |- *. cbv beta iota. rewrite D.
  unfold q_save_effect. rewrite q_setItem_le; [by eexists|].
  cbn [setItem gmap_storage todos]. rewrite delete_insert_eq. lia.
Qed.

(** C25: A reminder added when its list does not fit is lost: from a
    state whose store holds its well-formed list and fits the quota,
    adding a non-blank draft whose new list does not fit unmounts the
    component, and the next mount under the same quota shows the list
    without the new reminder.  Spec section 7 asks that a failed write not
    stop the component. *)
Theorem quota_loses_reminder c s now1 now2 :
  mirrors c s -> within_quota quota s = true -> todos_wf (todos c) = true ->
  truthy (trim (newTodo c)) = true ->
  (quota < area_size (delete STORAGE_KEY s) +
     (length STORAGE_KEY + length (serialize (new_todo (newTodo c) now1 now2 :: todos c))))%nat ->
  q_step_fn quota (QOk c s) (EvClickAdd now1 now2) = QUnmounted s /\
  exists s', q_mount quota s = MountOk {| todos := todos c; newTodo := []; filter := All |} s'.
Proof.
  intros Hm Hs Hwf Ht Hq. split; [|by apply q_mount_mirrors].
  unfold q_step_fn. cbn [available]. rewrite Ht. unfold q_commit, handle, addTodo. rewrite Ht.
  cbn [negb existsb is_set_todos orb fold_left apply_update todos add_update].
  unfold q_save_effect, add_update. cbn [todos].
  by rewrite (proj2 (q_setItem_None _ _ _ Hs) Hq).
Qed.
End Theorems.

(** ** Witnesses *)

Definition empty_list_store : store := <[STORAGE_KEY := js "[]"]> ∅.

Lemma q_run_mirrors_witness :
  let evs := [EvChange (js "a"); EvClickAdd 1 1; EvClickToggle (js "1")] in
  exists c' s', q_run 200 (QOk initial_comp empty_list_store) evs = QOk c' s' /\
  mirrors initial_comp empty_list_store /\ within_quota 200 empty_list_store = true /\
  mirrors c' s' /\ within_quota 200 s' = true.
Proof.
  intros evs.
  assert (Hm : mirrors initial_comp empty_list_store) by (vm_compute; reflexivity).
  assert (Hs : within_quota 200 empty_list_store = true) by (vm_compute; reflexivity).
  destruct (q_run 200 (QOk initial_comp empty_list_store) evs) as [c' s'|s'] eqn:E;
    [|vm_compute in E; discriminate].
  destruct (q_run_mirrors 200 initial_comp empty_list_store evs c' s' Hm Hs E).
  exists c', s'. split_and!; (assumption || reflexivity).
Defined.

Definition adding : Comp := {| todos := []; newTodo := js "walk dog"; filter := All |}.

Lemma q_step_quota_witness :
  within_quota 40 empty_list_store = true /\ available adding (EvClickAdd 1 1) = true /\
  q_step_fn 40 (QOk adding empty_list_store) (EvClickAdd 1 1) = QUnmounted empty_list_store.
Proof.
  split_and!; [vm_compute; reflexivity | vm_compute; reflexivity |].
  apply (q_step_quota 40 adding empty_list_store (EvClickAdd 1 1));
    [vm_compute; reflexivity | vm_compute; reflexivity | split; vm_compute; [reflexivity | lia]].
Defined.

Lemma quota_loses_reminder_witness :
  mirrors adding empty_list_store /\ within_quota 40 empty_list_store = true /\
  todos_wf (todos adding) = true /\ truthy (trim (newTodo adding)) = true /\
  (40 < area_size (delete STORAGE_KEY empty_list_store) +
     (length STORAGE_KEY + length (serialize (new_todo (newTodo adding) 1 1 :: todos adding))))%nat /\
  q_step_fn 40 (QOk adding empty_list_store) (EvClickAdd 1 1) = QUnmounted empty_list_store /\
  exists s', q_mount 40 empty_list_store = MountOk {| todos := []; newTodo := []; filter := All |} s'.
Proof.
  assert (Hm : mirrors adding empty_list_store) by (vm_compute; reflexivity).
  assert (Hs : within_quota 40 empty_list_store = true) by (vm_compute; reflexivity).
  assert (Hw : todos_wf (todos adding) = true) by reflexivity.
  assert (Ht : truthy (trim (newTodo adding)) = true) by (vm_compute; reflexivity).
  assert (Hq : (40 < area_size (delete STORAGE_KEY empty_list_store) +
     (length STORAGE_KEY + length (serialize (new_todo (newTodo adding) 1 1 :: todos adding))))%nat)
    by (vm_compute; lia).
  destruct (quota_loses_reminder 40 adding empty_list_store 1 1 Hm Hs Hw Ht Hq) as [H1 H2].
  split_and!; [exact Hm | exact Hs | exact Hw | exact Ht | exact Hq | exact H1 | exact H2].
Defined.

End Quota.
